(** * System monitor: a shallow embedding of [system_monitor.py]

    The engine of [SystemMonitor] is embedded function by function:
    the bounded history ([collections.deque] with [maxlen]), the threshold
    evaluation, the alert buffer, the persistence of the history, the
    monitoring loop with its worker thread, and the windowed statistics.

    Conventions of the embedding.
    - Python numbers that hold percentages are floats; they are embedded
      as rationals [Q].  Comparisons of finite floats (and of a float with
      an int) agree with the comparison of the rationals they denote; sums
      and quotients are taken exactly.
    - [datetime] instants are embedded as an integer count of microseconds;
      [isoformat]/[fromisoformat] are inverse on the instants the engine
      produces, so a snapshot carries its instant directly.
    - A reading that is the empty dict [{}] (its domain failed) is [None].
    - Effects are explicit: every method takes and returns the engine
      object and the world (the log file and the chronological trace of
      observable events). *)

From Stdlib Require Import String Ascii DecimalString.
From Stdlib Require Import List ZArith QArith Qround Qabs Bool Lia.
From Stdlib Require Import Permutation.
Import ListNotations.

Set Implicit Arguments.

(** ** Numbers *)

(** [a > b] on Python numbers. *)
Definition Qgt_bool (a b : Q) : bool := negb (Qle_bool a b).

(** Truthiness of a number: [if x] is false exactly for zero. *)
Definition truthy (x : Q) : bool := negb (Qeq_bool x 0).

(** Rounding to the nearest integer, ties to even, as the [.1f]
    conversion does on the exact value of its argument. *)
Definition round_half_even (q : Q) : Z :=
  let f := Qfloor q in
  match Qcompare (q - inject_Z f) (1 # 2) with
  | Lt => f
  | Gt => (f + 1)%Z
  | Eq => if Z.even f then f else (f + 1)%Z
  end.

Definition string_of_Z (z : Z) : string := NilZero.string_of_int (Z.to_int z).

(** [f"{q:.1f}"]. *)
Definition format_1f (q : Q) : string :=
  let tenths := round_half_even (Qabs q * 10) in
  ((if Qgt_bool 0 q then "-" else "")
   ++ string_of_Z (tenths / 10) ++ "." ++ string_of_Z (tenths mod 10))%string.

(** ** Sequences *)

(** The slice [l[-n:]] for a positive constant [n]: the last [n] items. *)
Definition lastn {A : Type} (n : nat) (l : list A) : list A :=
  skipn (length l - n) l.

(** [collections.deque(maxlen=...)]: [append] adds on the right and, when
    the bound is exceeded, drops one item on the left.  No error is
    raised on overflow. *)
Definition deque_append {A : Type} (maxlen : nat) (d : list A) (x : A) : list A :=
  let d' := d ++ [x] in
  if maxlen <? length d' then tl d' else d'.

(** A run of appends, oldest first. *)
Definition deque_extend {A : Type} (maxlen : nat) (d : list A) (xs : list A) : list A :=
  fold_left (deque_append maxlen) xs d.

(** ** Data model *)

(** Instants, in microseconds. *)
Definition instant := Z.
Bind Scope Z_scope with instant.

Module Cpu.
Record t := mk {
  cpu_percent : Q;
  cpu_per_core : list Q;
  cpu_freq_current : option Q;
  cpu_freq_min : option Q;
  cpu_freq_max : option Q;
  load_avg : option (Q * Q * Q)
}.
End Cpu.

Module Memory.
Record t := mk {
  memory_total : Z;
  memory_available : Z;
  memory_used : Z;
  memory_free : Z;
  memory_percent : Q;
  swap_total : Z;
  swap_used : Z;
  swap_free : Z;
  swap_percent : Q
}.
End Memory.

Module DiskInfo.
Record t := mk {
  device : string;
  mountpoint : string;
  file_system : string;
  total : Z;
  used : Z;
  free : Z;
  percent : Q
}.
End DiskInfo.

Module DiskIO.
Record t := mk {
  read_count : Z;
  write_count : Z;
  read_bytes : Z;
  write_bytes : Z;
  read_time : Z;
  write_time : Z
}.
End DiskIO.

Module Disk.
Record t := mk {
  disks : list DiskInfo.t;
  disk_io : option DiskIO.t
}.
End Disk.

Module Address.
Record t := mk {
  family : string;
  address : option string;
  netmask : option string;
  broadcast : option string
}.
End Address.

Module Interface.
Record t := mk {
  name : string;
  addresses : list Address.t;
  is_up : bool
}.
End Interface.

Module NetIO.
Record t := mk {
  bytes_sent : Z;
  bytes_recv : Z;
  packets_sent : Z;
  packets_recv : Z;
  errin : Z;
  errout : Z;
  dropin : Z;
  dropout : Z
}.
End NetIO.

Module Network.
Record t := mk {
  interfaces : list Interface.t;
  network_io : option NetIO.t
}.
End Network.

Module Proc.
Record t := mk {
  pid : Z;
  name : option string;
  cpu_percent : option Q;
  memory_percent : option Q;
  status : option string
}.
End Proc.

Module Processes.
Record t := mk {
  total_processes : nat;
  top_processes : list Proc.t
}.
End Processes.

Module Snapshot.
Record t := mk {
  timestamp : instant;
  cpu : option Cpu.t;
  memory : option Memory.t;
  disk : option Disk.t;
  network : option Network.t;
  processes : option Processes.t
}.
End Snapshot.

Module Thresholds.
Record t := mk {
  cpu_percent : Q;
  memory_percent : Q;
  disk_percent : Q;
  network_speed : Q
}.

(** The values set by the constructor. *)
Definition default : t := mk 80 85 90 100.
End Thresholds.

Inductive alert_type := cpu_high | memory_high | disk_high.

Module Alert.
Record t := mk {
  timestamp : instant;
  type : alert_type;
  message : string;
  value : Q;
  threshold : Q
}.
End Alert.

(** ** Reading a snapshot *)

(** [snapshot['cpu'].get('cpu_percent')]: absent when the reading is [{}]. *)
Definition get_cpu_percent (snapshot : Snapshot.t) : option Q :=
  option_map Cpu.cpu_percent (Snapshot.cpu snapshot).

(** [snapshot['memory'].get('memory_percent')]. *)
Definition get_memory_percent (snapshot : Snapshot.t) : option Q :=
  option_map Memory.memory_percent (Snapshot.memory snapshot).

(** [snapshot['disk'].get('disks', [])]. *)
Definition get_disks (snapshot : Snapshot.t) : list DiskInfo.t :=
  match Snapshot.disk snapshot with
  | Some d => Disk.disks d
  | None => []
  end.

(** [d.get(key, 0)] on a number. *)
Definition or_zero (o : option Q) : Q :=
  match o with
  | Some v => v
  | None => 0
  end.

(** ** check_thresholds *)

Definition cpu_message (cpu_percent : Q) : string :=
  ("Высокая загрузка CPU: " ++ format_1f cpu_percent ++ "%")%string.

Definition memory_message (memory_percent : Q) : string :=
  ("Высокое использование памяти: " ++ format_1f memory_percent ++ "%")%string.

Definition disk_message (disk : DiskInfo.t) : string :=
  ("Диск " ++ DiskInfo.device disk ++ " заполнен на "
   ++ format_1f (DiskInfo.percent disk) ++ "%")%string.

Definition check_thresholds (thresholds : Thresholds.t) (snapshot : Snapshot.t)
  : list Alert.t :=
  let alerts := [] in
  let timestamp := Snapshot.timestamp snapshot in
  let cpu_percent := or_zero (get_cpu_percent snapshot) in
  let alerts :=
    if Qgt_bool cpu_percent (Thresholds.cpu_percent thresholds)
    then alerts ++ [Alert.mk timestamp cpu_high (cpu_message cpu_percent)
                      cpu_percent (Thresholds.cpu_percent thresholds)]
    else alerts in
  let memory_percent := or_zero (get_memory_percent snapshot) in
  let alerts :=
    if Qgt_bool memory_percent (Thresholds.memory_percent thresholds)
    then alerts ++ [Alert.mk timestamp memory_high (memory_message memory_percent)
                      memory_percent (Thresholds.memory_percent thresholds)]
    else alerts in
  fold_left
    (fun alerts disk =>
       if Qgt_bool (DiskInfo.percent disk) (Thresholds.disk_percent thresholds)
       then alerts ++ [Alert.mk timestamp disk_high (disk_message disk)
                         (DiskInfo.percent disk) (Thresholds.disk_percent thresholds)]
       else alerts)
    (get_disks snapshot) alerts.

(** ** The metrics provider and the collectors *)

(** What [psutil.disk_usage(mountpoint)] does for one partition: it
    returns the usage triple, raises [PermissionError], or raises
    another exception. *)
Inductive usage_outcome :=
| UsageOk (total used free : Z)
| UsagePermissionError
| UsageOtherError.

Record partition := {
  part_device : string;
  part_mountpoint : string;
  part_fstype : string;
  part_usage : usage_outcome
}.

(** The disk side of the provider.  [None] stands for a call that raises. *)
Record disk_provider := {
  disk_partitions : option (list partition);
  disk_io_counters : option (option DiskIO.t)
}.

(** [used / total] on ints: a [ZeroDivisionError] when [total] is zero. *)
Definition true_div (used total : Z) : option Q :=
  if (total =? 0)%Z then None else Some (inject_Z used / inject_Z total).

(** The partition loop of [get_disk_info].  The inner handler catches
    [PermissionError] only ([continue]); any other exception leaves the
    loop, which is [None] here. *)
Fixpoint disk_loop (partitions : list partition) (disks : list DiskInfo.t)
  : option (list DiskInfo.t) :=
  match partitions with
  | [] => Some disks
  | partition :: rest =>
      match part_usage partition with
      | UsagePermissionError => disk_loop rest disks
      | UsageOtherError => None
      | UsageOk total used free =>
          match true_div used total with
          | None => None
          | Some ratio =>
              let disk_info :=
                DiskInfo.mk (part_device partition) (part_mountpoint partition)
                  (part_fstype partition) total used free (ratio * 100) in
              disk_loop rest (disks ++ [disk_info])
          end
      end
  end.

(** [get_disk_info]: the outer handler turns every exception into [{}]. *)
Definition get_disk_info (p : disk_provider) : option Disk.t :=
  match disk_partitions p with
  | None => None
  | Some partitions =>
      match disk_loop partitions [] with
      | None => None
      | Some disks =>
          match disk_io_counters p with
          | None => None
          | Some io_info => Some (Disk.mk disks io_info)
          end
      end
  end.

(** The provider as one tick sees it: the clock and, per domain, what the
    queries of that domain yield ([None]: a query raised, the collector
    returns [{}]). *)
Record provider := {
  prov_now : instant;
  prov_cpu : option Cpu.t;
  prov_memory : option Memory.t;
  prov_disk : disk_provider;
  prov_network : option Network.t;
  prov_processes : option Processes.t
}.

Definition get_cpu_info (p : provider) : option Cpu.t := prov_cpu p.
Definition get_memory_info (p : provider) : option Memory.t := prov_memory p.
Definition get_network_info (p : provider) : option Network.t := prov_network p.
Definition get_process_info (p : provider) : option Processes.t := prov_processes p.

Definition collect_system_snapshot (p : provider) : Snapshot.t :=
  let timestamp := prov_now p in
  Snapshot.mk timestamp (get_cpu_info p) (get_memory_info p)
    (get_disk_info (prov_disk p)) (get_network_info p) (get_process_info p).

(** ** The engine object *)

(** The attributes of a [SystemMonitor].  [log_data] is a
    [deque(maxlen=1000)], oldest snapshot first. *)
Record SystemMonitor := {
  log_file : string;
  monitoring : bool;
  log_data : list Snapshot.t;
  alerts : list Alert.t;
  thresholds : Thresholds.t
}.

Definition set_monitoring (b : bool) (self : SystemMonitor) : SystemMonitor :=
  {| log_file := log_file self; monitoring := b; log_data := log_data self;
     alerts := alerts self; thresholds := thresholds self |}.

Definition set_log_data (d : list Snapshot.t) (self : SystemMonitor) : SystemMonitor :=
  {| log_file := log_file self; monitoring := monitoring self; log_data := d;
     alerts := alerts self; thresholds := thresholds self |}.

Definition set_alerts (a : list Alert.t) (self : SystemMonitor) : SystemMonitor :=
  {| log_file := log_file self; monitoring := monitoring self;
     log_data := log_data self; alerts := a; thresholds := thresholds self |}.

Definition set_thresholds (t : Thresholds.t) (self : SystemMonitor) : SystemMonitor :=
  {| log_file := log_file self; monitoring := monitoring self;
     log_data := log_data self; alerts := alerts self; thresholds := t |}.

(** ** Statistics *)

Module Stat.
Record t := mk { avg : Q; max : Q; min : Q }.
End Stat.

Module Statistics.
Record t := mk {
  period_hours : Z;
  data_points : nat;
  cpu : Stat.t;
  memory : Stat.t
}.
End Statistics.

(** [sum(values)]: starts from 0 and adds from the left. *)
Definition py_sum (values : list Q) : Q := fold_left Qplus values 0.

(** [max] over a non-empty sequence [first :: rest]: the running maximum
    is replaced only by a strictly greater item. *)
Definition py_max (first : Q) (rest : list Q) : Q :=
  fold_left (fun m x => if Qgt_bool x m then x else m) rest first.

(** [min] over a non-empty sequence. *)
Definition py_min (first : Q) (rest : list Q) : Q :=
  fold_left (fun m x => if Qgt_bool m x then x else m) rest first.

(** [{'avg': sum(v)/len(v) if v else 0, 'max': max(v) if v else 0,
      'min': min(v) if v else 0}]. *)
Definition stat_of (values : list Q) : Stat.t :=
  match values with
  | [] => Stat.mk 0 0 0
  | first :: rest =>
      Stat.mk (py_sum values / inject_Z (Z.of_nat (length values)))
        (py_max first rest) (py_min first rest)
  end.

(** [timedelta(hours=hours)] in microseconds. *)
Definition timedelta_hours (hours : Z) : Z := (hours * 3600000000)%Z.

(** [[get(e, 0) for e in data if get(e)]]. *)
Definition readings (get : Snapshot.t -> option Q) (data : list Snapshot.t) : list Q :=
  map (fun entry => or_zero (get entry))
    (filter (fun entry =>
               match get entry with
               | Some v => truthy v
               | None => false
               end) data).

(** [get_statistics]; [now] is the reading of the clock taken by the
    call ([datetime.now()]).  The engine object is only read. *)
Definition get_statistics (now : instant) (hours : Z) (self : SystemMonitor)
  : option Statistics.t :=
  match log_data self with
  | [] => None
  | _ =>
      let cutoff_time := (now - timedelta_hours hours)%Z in
      let recent_data :=
        filter (fun entry => (cutoff_time <=? Snapshot.timestamp entry)%Z)
          (log_data self) in
      match recent_data with
      | [] => None
      | _ =>
          let cpu_values := readings get_cpu_percent recent_data in
          let memory_values := readings get_memory_percent recent_data in
          Some (Statistics.mk hours (length recent_data)
                  (stat_of cpu_values) (stat_of memory_values))
      end
  end.

(** ** The world: files and observable events *)

(** What [json.load] returns at top level, as far as [load_log_data]
    distinguishes: an array of records, or a value that cannot be sliced
    (an object, a number, [null], a boolean). *)
Inductive json_value :=
| JArray (records : list Snapshot.t)
| JOther.

(** What the engine prints. *)
Inductive message :=
| MsgLoadError
| MsgSaveError
| MsgLoopError
| MsgStarted (interval : Z)
| MsgStopped.

(** Observable events, in chronological order in a trace:
    a printed line, [open(path, 'w')] attempted by [save_log_data],
    [time.sleep(interval)]. *)
Inductive event :=
| EvPrint (m : message)
| EvOpenWrite (path : string)
| EvSleep (interval : Z).

Definition is_open_write (e : event) : bool :=
  match e with
  | EvOpenWrite _ => true
  | _ => false
  end.

Definition is_sleep (e : event) : bool :=
  match e with
  | EvSleep _ => true
  | _ => false
  end.

(** The three keys the interactive surface assigns in [thresholds]. *)
Inductive threshold_key := key_cpu_percent | key_memory_percent | key_disk_percent.

(** [thresholds[key] = new_value] on the dict. *)
Definition update_thresholds (k : threshold_key) (new_value : Q) (t : Thresholds.t)
  : Thresholds.t :=
  match k with
  | key_cpu_percent =>
      Thresholds.mk new_value (Thresholds.memory_percent t)
        (Thresholds.disk_percent t) (Thresholds.network_speed t)
  | key_memory_percent =>
      Thresholds.mk (Thresholds.cpu_percent t) new_value
        (Thresholds.disk_percent t) (Thresholds.network_speed t)
  | key_disk_percent =>
      Thresholds.mk (Thresholds.cpu_percent t) (Thresholds.memory_percent t)
        new_value (Thresholds.network_speed t)
  end.

(** [monitor.thresholds[key] = new_value]. *)
Definition set_threshold (k : threshold_key) (new_value : Q) (self : SystemMonitor)
  : SystemMonitor :=
  set_thresholds (update_thresholds k new_value (thresholds self)) self.

(** The state of a worker thread running [monitor_loop]: about to test
    [while self.monitoring], inside an iteration whose test has passed,
    or returned. *)
Inductive worker :=
| AtLoopTest (interval : Z)
| InTick (interval : Z)
| Finished.

Definition in_tick (t : worker) : bool :=
  match t with
  | InTick _ => true
  | _ => false
  end.

Fixpoint set_nth {A : Type} (i : nat) (x : A) (l : list A) : list A :=
  match l, i with
  | [], _ => []
  | _ :: r, O => x :: r
  | y :: r, S j => y :: set_nth j x r
  end.

Section Engine.

(** The contents of a file, and the two [json] calls of the engine:
    [json.dump] of a list of snapshots and [json.load] ([None]: it
    raises). *)
Variable text : Type.
Variable json_dump : list Snapshot.t -> text.
Variable json_load : text -> option json_value.

(** A path of the file system: no file, a file that cannot be opened
    or read, or a file with its contents. *)
Inductive file_state :=
| FileMissing
| FileUnreadable
| FileContent (contents : text).

Record world := {
  fs : string -> file_state;
  trace : list event
}.

Definition emit (e : event) (w : world) : world :=
  {| fs := fs w; trace := trace w ++ [e] |}.

Definition write_file (path : string) (f : file_state) (w : world) : world :=
  {| fs := fun p => if String.eqb p path then f else fs w p; trace := trace w |}.

(** What the file system does with one [save_log_data]: the write
    completes, [open] raises (the file is untouched), or the write
    raises after the file was truncated and partly written. *)
Inductive write_outcome :=
| WriteOk
| OpenFails
| WriteFails (partial : text).

(** [load_log_data]. *)
Definition load_log_data (self : SystemMonitor) (w : world) : SystemMonitor * world :=
  match fs w (log_file self) with
  | FileMissing => (self, w)
  | FileUnreadable => (self, emit (EvPrint MsgLoadError) w)
  | FileContent contents =>
      match json_load contents with
      | None => (self, emit (EvPrint MsgLoadError) w)
      | Some JOther => (self, emit (EvPrint MsgLoadError) w)
      | Some (JArray data) =>
          (set_log_data (deque_extend 1000 (log_data self) (lastn 1000 data)) self, w)
      end
  end.

(** [save_log_data]. *)
Definition save_log_data (o : write_outcome) (self : SystemMonitor) (w : world)
  : SystemMonitor * world :=
  let w := emit (EvOpenWrite (log_file self)) w in
  match o with
  | WriteOk =>
      (self, write_file (log_file self) (FileContent (json_dump (log_data self))) w)
  | OpenFails => (self, emit (EvPrint MsgSaveError) w)
  | WriteFails partial =>
      (self, emit (EvPrint MsgSaveError)
               (write_file (log_file self) (FileContent partial) w))
  end.

(** [SystemMonitor.__init__]. *)
Definition __init__ (log_file : string) (w : world) : SystemMonitor * world :=
  load_log_data
    {| log_file := log_file; monitoring := false; log_data := [];
       alerts := []; thresholds := Thresholds.default |} w.

(** What one iteration of [monitor_loop] takes from outside. *)
Record tick_input := {
  tick_provider : provider;
  tick_write : write_outcome
}.

(** The body of [while self.monitoring] in [monitor_loop].  Nothing in
    the [try] block raises on these types (the collectors and
    [save_log_data] catch their own exceptions), so the handler of the
    loop is not reached. *)
Definition monitor_loop_body (interval : Z) (inp : tick_input)
           (self : SystemMonitor) (w : world) : SystemMonitor * world :=
  let snapshot := collect_system_snapshot (tick_provider inp) in
  let self := set_log_data (deque_append 1000 (log_data self) snapshot) self in
  let new_alerts := check_thresholds (thresholds self) snapshot in
  let self := set_alerts (alerts self ++ new_alerts) self in
  let self :=
    if 100 <? length (alerts self)
    then set_alerts (lastn 100 (alerts self)) self
    else self in
  let (self, w) :=
    if length (log_data self) mod 10 =? 0
    then save_log_data (tick_write inp) self w
    else (self, w) in
  (self, emit (EvSleep interval) w).

(** [stop_monitoring]. *)
Definition stop_monitoring (o : write_outcome) (self : SystemMonitor) (w : world)
  : SystemMonitor * world :=
  if monitoring self
  then
    let self := set_monitoring false self in
    let (self, w) := save_log_data o self w in
    (self, emit (EvPrint MsgStopped) w)
  else (self, w).

(** The engine with its threads. *)
Record machine := {
  engine : SystemMonitor;
  env : world;
  threads : list worker
}.

(** [start_monitoring]: when not monitoring, set the flag and start a
    thread on [monitor_loop]. *)
Definition start_monitoring (interval : Z) (m : machine) : machine :=
  if monitoring (engine m)
  then m
  else
    {| engine := set_monitoring true (engine m);
       env := emit (EvPrint (MsgStarted interval)) (env m);
       threads := threads m ++ [AtLoopTest interval] |}.

(** The moves of the machine: the interactive thread calls a method or
    assigns a threshold; worker [i] evaluates its loop test or runs the
    body of the iteration it has entered.  The threads share the engine
    object without a lock; a run is one interleaving of their moves.  The
    body of an iteration is taken as one move, so the interactive thread
    acts between the loop test of a worker and its body, or between
    iterations. *)
Inductive label :=
| LStart (interval : Z)
| LStop (o : write_outcome)
| LSetThreshold (k : threshold_key) (new_value : Q)
| LLoopTest (i : nat)
| LTick (i : nat) (inp : tick_input).

Definition step (l : label) (m : machine) : option machine :=
  match l with
  | LStart interval => Some (start_monitoring interval m)
  | LStop o =>
      let (self, w) := stop_monitoring o (engine m) (env m) in
      Some {| engine := self; env := w; threads := threads m |}
  | LSetThreshold k v =>
      Some {| engine := set_threshold k v (engine m); env := env m;
              threads := threads m |}
  | LLoopTest i =>
      match nth_error (threads m) i with
      | Some (AtLoopTest interval) =>
          let next := if monitoring (engine m) then InTick interval else Finished in
          Some {| engine := engine m; env := env m;
                  threads := set_nth i next (threads m) |}
      | _ => None
      end
  | LTick i inp =>
      match nth_error (threads m) i with
      | Some (InTick interval) =>
          let (self, w) := monitor_loop_body interval inp (engine m) (env m) in
          Some {| engine := self; env := w;
                  threads := set_nth i (AtLoopTest interval) (threads m) |}
      | _ => None
      end
  end.

Fixpoint run (ls : list label) (m : machine) : option machine :=
  match ls with
  | [] => Some m
  | l :: rest =>
      match step l m with
      | Some m' => run rest m'
      | None => None
      end
  end.

(** The machine once the constructor has run. *)
Definition boot (log_file : string) (w : world) : machine :=
  let (self, w) := __init__ log_file w in
  {| engine := self; env := w; threads := [] |}.

(** The events a step has added to the trace. *)
Definition emitted (before after : machine) : list event :=
  skipn (length (trace (env before))) (trace (env after)).

(** The step called [save_log_data]. *)
Definition saved (before after : machine) : bool :=
  existsb is_open_write (emitted before after).

Definition is_tick (l : label) : bool :=
  match l with
  | LTick _ _ => true
  | _ => false
  end.

(** The alerts the iterations of a run produce, in order: each
    iteration evaluates its snapshot against the thresholds in force. *)
Fixpoint produced (t : Thresholds.t) (ls : list label) : list Alert.t :=
  match ls with
  | [] => []
  | LTick _ inp :: rest =>
      check_thresholds t (collect_system_snapshot (tick_provider inp))
        ++ produced t rest
  | LSetThreshold k v :: rest => produced (update_thresholds k v t) rest
  | _ :: rest => produced t rest
  end.

End Engine.

Arguments FileMissing {text}.
Arguments FileUnreadable {text}.
Arguments WriteOk {text}.
Arguments OpenFails {text}.
Arguments LStart {text} interval.
Arguments LSetThreshold {text} k new_value.
Arguments LLoopTest {text} i.

(** ** The threshold rule in the words of the specification *)

(** A value exceeds a threshold when it is strictly greater. *)
Definition exceeds (value threshold : Q) : bool :=
  if Qlt_le_dec threshold value then true else false.

Definition cpu_alert (t : Thresholds.t) (s : Snapshot.t) : Alert.t :=
  let v := or_zero (get_cpu_percent s) in
  Alert.mk (Snapshot.timestamp s) cpu_high (cpu_message v) v (Thresholds.cpu_percent t).

Definition memory_alert (t : Thresholds.t) (s : Snapshot.t) : Alert.t :=
  let v := or_zero (get_memory_percent s) in
  Alert.mk (Snapshot.timestamp s) memory_high (memory_message v) v
    (Thresholds.memory_percent t).

Definition disk_alert (t : Thresholds.t) (s : Snapshot.t) (d : DiskInfo.t) : Alert.t :=
  Alert.mk (Snapshot.timestamp s) disk_high (disk_message d) (DiskInfo.percent d)
    (Thresholds.disk_percent t).

(** One cpu alert if the cpu percent exceeds its threshold, then one
    memory alert if the memory percent exceeds its threshold, then one
    disk alert per partition that exceeds the disk threshold, in the
    order of the partitions. *)
Definition spec_alerts (t : Thresholds.t) (s : Snapshot.t) : list Alert.t :=
  (if exceeds (or_zero (get_cpu_percent s)) (Thresholds.cpu_percent t)
   then [cpu_alert t s] else [])
  ++ (if exceeds (or_zero (get_memory_percent s)) (Thresholds.memory_percent t)
      then [memory_alert t s] else [])
  ++ map (disk_alert t s)
       (filter (fun d => exceeds (DiskInfo.percent d) (Thresholds.disk_percent t))
          (get_disks s)).

(** ** Statistics in the words of the specification *)

(** The snapshots of the trailing window: those at or after the cutoff. *)
Definition window (now : instant) (hours : Z) (log : list Snapshot.t) : list Snapshot.t :=
  filter (fun e => (now - timedelta_hours hours <=? Snapshot.timestamp e)%Z) log.

(** The readings that count: a snapshot whose field is absent or zero is
    skipped. *)
Definition surviving (get : Snapshot.t -> option Q) (data : list Snapshot.t) : list Q :=
  flat_map (fun e =>
              match get e with
              | Some v => if Qeq_dec v 0 then [] else [v]
              | None => []
              end) data.






(** ** Sample data *)

Definition sample_cpu (percent : Q) : Cpu.t :=
  Cpu.mk percent [percent] None None None None.

Definition sample_memory (percent : Q) : Memory.t :=
  Memory.mk 16000 8000 8000 8000 percent 0 0 0 0.

(** A snapshot taken at [at_time] with the given cpu and memory percent
    and no disk, network or process reading. *)
Definition sample_snapshot (at_time : instant) (cpu memory : Q) : Snapshot.t :=
  Snapshot.mk at_time (Some (sample_cpu cpu)) (Some (sample_memory memory))
    None None None.

Definition sample_monitor (log : list Snapshot.t) : SystemMonitor :=
  {| log_file := "system_monitor.json"; monitoring := false; log_data := log;
     alerts := []; thresholds := Thresholds.default |}.

Definition sample_partition (device : string) (u : usage_outcome) : partition :=
  {| part_device := device; part_mountpoint := "/"; part_fstype := "ext4";
     part_usage := u |}.

Definition sample_provider (now : instant) (ps : list partition) : provider :=
  {| prov_now := now;
     prov_cpu := Some (sample_cpu 50);
     prov_memory := Some (sample_memory 50);
     prov_disk := {| disk_partitions := Some ps; disk_io_counters := Some None |};
     prov_network := None;
     prov_processes := None |}.

(** A codec for the examples: the text of a file is the list of records
    itself. *)
Definition plain_dump (l : list Snapshot.t) : list Snapshot.t := l.

Definition plain_load (contents : list Snapshot.t) : option json_value :=
  Some (JArray contents).

(** A file system with no file at all, and one whose log file holds the
    given records. *)
Definition empty_world : world (list Snapshot.t) :=
  {| fs := fun _ => FileMissing; trace := [] |}.

Definition stored (records : list Snapshot.t) : world (list Snapshot.t) :=
  write_file "system_monitor.json" (FileContent records) empty_world.


Definition nine_snapshots : list Snapshot.t :=
  map (fun t => sample_snapshot t 10 40) [1; 2; 3; 4; 5; 6; 7; 8; 9]%Z.

(** The input of an iteration: a reading with the given cpu percent, and
    a file system that accepts the write. *)
Definition sample_input (now : instant) (cpu : Q) : tick_input (list Snapshot.t) :=
  {| tick_provider :=
       {| prov_now := now;
          prov_cpu := Some (sample_cpu cpu);
          prov_memory := Some (sample_memory 50);
          prov_disk := {| disk_partitions := Some []; disk_io_counters := Some None |};
          prov_network := None;
          prov_processes := None |};
     tick_write := WriteOk |}.

(** A run of [n] iterations of one worker, each on a reading with cpu at
    95 percent, taken at the instants 1 to [n]. *)
Definition hot_run (n : nat) : list (label (list Snapshot.t)) :=
  LStart 60 :: LLoopTest 0
  :: flat_map (fun t => [LTick 0 (sample_input (Z.of_nat t) 95); LLoopTest 0])
       (seq 1 n).

(** A second codec for the examples: a text is either a list of records
    or garbage that does not parse. *)
Definition opt_dump (l : list Snapshot.t) : option (list Snapshot.t) := Some l.

Definition opt_load (contents : option (list Snapshot.t)) : option json_value :=
  option_map JArray contents.

(** A store that holds 1000 records. *)
Definition thousand_snapshots : list Snapshot.t := repeat (sample_snapshot 0 10 40) 1000.

(** ** Vocabulary of the statements *)

(** The events of one [save_log_data]. *)
Definition save_events {text : Type} (o : write_outcome text) (path : string)
  : list event :=
  EvOpenWrite path
  :: match o with
     | WriteOk => []
     | _ => [EvPrint MsgSaveError]
     end.

(** The engine object as the constructor sets it before it loads the
    history. *)
Definition blank (path : string) : SystemMonitor :=
  {| log_file := path; monitoring := false; log_data := [];
     alerts := []; thresholds := Thresholds.default |}.

(** The engine after one iteration. *)
Definition after_tick {text : Type} (inp : tick_input text) (self : SystemMonitor)
  : SystemMonitor :=
  let snapshot := collect_system_snapshot (tick_provider inp) in
  {| log_file := log_file self;
     monitoring := monitoring self;
     log_data := deque_append 1000 (log_data self) snapshot;
     alerts := lastn 100 (alerts self ++ check_thresholds (thresholds self) snapshot);
     thresholds := thresholds self |}.

(** The events of one iteration. *)
Definition tick_events {text : Type} (interval : Z) (inp : tick_input text)
           (self : SystemMonitor) : list event :=
  (if (length (log_data (after_tick inp self)) mod 10 =? 0)%nat
   then save_events (tick_write inp) (log_file self) else [])
  ++ [EvSleep interval].

(** The percent of every partition that [disk_loop] keeps is the
    quotient of its [used] by its non-zero [total], times 100. *)
Definition percent_computed (d : DiskInfo.t) : Prop :=
  DiskInfo.total d <> 0%Z
  /\ DiskInfo.percent d
     = (inject_Z (DiskInfo.used d) / inject_Z (DiskInfo.total d) * 100)%Q.

(** The number of iterations in a run. *)
Definition count_ticks {text : Type} (ls : list (label text)) : nat :=
  length (filter (@is_tick text) ls).

(** The snapshots the iterations of a run collect, in order. *)
Definition collected {text : Type} (ls : list (label text)) : list Snapshot.t :=
  flat_map (fun l =>
              match l with
              | LTick _ inp => [collect_system_snapshot (tick_provider inp)]
              | _ => []
              end) ls.

(** ** Two readings of the specification, to be tested against the code *)

(** The save happens on iteration [k] of a run exactly when [k] is a
    multiple of 10, whatever the history held at startup. *)
Definition saves_every_tenth_tick : Prop :=
  forall (text : Type) (json_dump : list Snapshot.t -> text)
         (json_load : text -> option json_value)
         (path : string) (w : world text) (ls : list (label text))
         (m m' : machine text) (i : nat) (inp : tick_input text),
    run json_dump ls (boot json_load path w) = Some m ->
    step json_dump (LTick i inp) m = Some m' ->
    (saved m m' = true <-> (count_ticks ls + 1) mod 10 = 0)%nat.

(** When [stop_monitoring] returns, no worker is inside an iteration. *)
Definition stop_waits_for_tick : Prop :=
  forall (text : Type) (json_dump : list Snapshot.t -> text)
         (json_load : text -> option json_value)
         (path : string) (w : world text) (ls : list (label text))
         (m m' : machine text) (o : write_outcome text),
    run json_dump ls (boot json_load path w) = Some m ->
    step json_dump (LStop o) m = Some m' ->
    existsb in_tick (threads m') = false.

(** * The collectors and the status display in detail *)

(** ** Python helpers *)

(** The newline character of a string literal. *)
Definition nl : string := String (ascii_of_nat 10) EmptyString.

(** [s * n] on a string. *)
Fixpoint str_repeat (s : string) (n : nat) : string :=
  match n with
  | O => EmptyString
  | S k => (s ++ str_repeat s k)%string
  end.

(** [f"{s:20}"] on a string: left-aligned, padded with spaces to the
    width.  Characters are counted as the items of the string. *)
Definition ljust (width : nat) (s : string) : string :=
  (s ++ str_repeat " " (width - String.length s))%string.

(** The width of [f"{x:6.1f}"]: right-aligned, padded with spaces. *)
Definition rjust (width : nat) (s : string) : string :=
  (str_repeat " " (width - String.length s) ++ s)%string.

(** [f"{q:.0f}"]. *)
Definition format_0f (q : Q) : string :=
  ((if Qgt_bool 0 q then "-" else "") ++ string_of_Z (round_half_even (Qabs q)))%string.

(** [l[:limit]] for an int [limit]: a negative limit counts from the
    end. *)
Definition py_prefix {A : Type} (limit : Z) (l : list A) : list A :=
  if (limit <? 0)%Z
  then firstn (length l - Z.to_nat (- limit)) l
  else firstn (Z.to_nat limit) l.

(** [d[k]] guarded by [k in d], on a dict given by its items. *)
Fixpoint dict_get {V : Type} (d : list (string * V)) (k : string) : option V :=
  match d with
  | [] => None
  | (k', v) :: rest => if String.eqb k' k then Some v else dict_get rest k
  end.

(** [x or 0] on an optional number. *)
Definition or_0 (x : option Q) : Q :=
  match x with
  | Some v => if truthy v then v else 0
  | None => 0
  end.

Module Collectors.

(** *** get_cpu_info *)

(** The result of [psutil.cpu_freq()]. *)
Record scpufreq := {
  freq_current : Q;
  freq_min : Q;
  freq_max : Q
}.

(** [os.getloadavg]: the attribute is absent, the call raises, or it
    returns the triple. *)
Inductive loadavg_outcome :=
| LoadavgAbsent
| LoadavgRaises
| LoadavgOk (triple : Q * Q * Q).

(** The queries of [get_cpu_info]; [None] stands for a call that raises,
    [Some None] for [cpu_freq()] returning [None]. *)
Record cpu_source := {
  cpu_percent_total : option Q;
  cpu_percent_percpu : option (list Q);
  cpu_freq : option (option scpufreq);
  os_getloadavg : loadavg_outcome
}.

Definition get_cpu_info (s : cpu_source) : option Cpu.t :=
  match cpu_percent_total s with
  | None => None
  | Some cpu_percent =>
      match cpu_percent_percpu s with
      | None => None
      | Some cpu_per_core =>
          match cpu_freq s with
          | None => None
          | Some cpu_freq =>
              let load_avg :=
                match os_getloadavg s with
                | LoadavgOk triple => Some triple
                | LoadavgAbsent => None
                | LoadavgRaises => None
                end in
              Some (Cpu.mk cpu_percent cpu_per_core
                      (option_map freq_current cpu_freq)
                      (option_map freq_min cpu_freq)
                      (option_map freq_max cpu_freq)
                      load_avg)
          end
      end
  end.

(** *** get_memory_info *)

Record svmem := {
  vm_total : Z;
  vm_available : Z;
  vm_used : Z;
  vm_free : Z;
  vm_percent : Q
}.

Record sswap := {
  sw_total : Z;
  sw_used : Z;
  sw_free : Z;
  sw_percent : Q
}.

Record memory_source := {
  virtual_memory : option svmem;
  swap_memory : option sswap
}.

Definition get_memory_info (s : memory_source) : option Memory.t :=
  match virtual_memory s with
  | None => None
  | Some vm =>
      match swap_memory s with
      | None => None
      | Some sw =>
          Some (Memory.mk (vm_total vm) (vm_available vm) (vm_used vm) (vm_free vm)
                  (vm_percent vm) (sw_total sw) (sw_used sw) (sw_free sw)
                  (sw_percent sw))
      end
  end.

(** *** get_network_info *)

(** The queries of [get_network_info]: the items of the two dicts in
    their order, the [isup] field of each stats entry, and the I/O
    counters ([Some None]: [net_io_counters()] returns [None]). *)
Record network_source := {
  net_if_addrs : option (list (string * list Address.t));
  net_if_stats : option (list (string * bool));
  net_io_counters : option (option NetIO.t)
}.

(** The body of the loop over [net_if_addrs.items()]. *)
Definition interface_info (stats : list (string * bool))
           (item : string * list Address.t) : Interface.t :=
  let (interface_name, addresses) := item in
  Interface.mk interface_name
    (fold_left (fun acc addr =>
                  acc ++ [Address.mk (Address.family addr) (Address.address addr)
                            (Address.netmask addr) (Address.broadcast addr)])
       addresses [])
    match dict_get stats interface_name with
    | Some isup => isup
    | None => false
    end.

Definition get_network_info (s : network_source) : option Network.t :=
  match net_if_addrs s with
  | None => None
  | Some addrs =>
      match net_if_stats s with
      | None => None
      | Some stats =>
          let network_interfaces :=
            fold_left (fun acc item => acc ++ [interface_info stats item]) addrs [] in
          match net_io_counters s with
          | None => None
          | Some io_info => Some (Network.mk network_interfaces io_info)
          end
      end
  end.

(** *** get_process_info *)

(** One process of [process_iter]: its [info] dict, one of the three
    exceptions the loop passes over ([NoSuchProcess], [AccessDenied],
    [ZombieProcess]), or another exception. *)
Inductive proc_outcome :=
| ProcInfo (info : Proc.t)
| ProcGone
| ProcError.

Fixpoint process_loop (procs : list proc_outcome) (processes : list Proc.t)
  : option (list Proc.t) :=
  match procs with
  | [] => Some processes
  | proc :: rest =>
      match proc with
      | ProcInfo info => process_loop rest (processes ++ [info])
      | ProcGone => process_loop rest processes
      | ProcError => None
      end
  end.

(** The sort key [lambda x: x['cpu_percent'] or 0]. *)
Definition cpu_key (x : Proc.t) : Q := or_0 (Proc.cpu_percent x).

(** [list.sort(key=..., reverse=True)]: descending by key, and stable,
    items with equal keys keep their order.  An item goes after the
    sorted items whose key is strictly greater. *)
Fixpoint insert_desc (x : Proc.t) (sorted : list Proc.t) : list Proc.t :=
  match sorted with
  | [] => [x]
  | y :: rest =>
      if Qgt_bool (cpu_key y) (cpu_key x)
      then y :: insert_desc x rest
      else x :: y :: rest
  end.

Definition sort_desc (processes : list Proc.t) : list Proc.t :=
  fold_right insert_desc [] processes.

(** [get_process_info(limit)]; [None] as the source stands for
    [process_iter] raising. *)
Definition get_process_info (limit : Z) (s : option (list proc_outcome))
  : option Processes.t :=
  match s with
  | None => None
  | Some procs =>
      match process_loop procs [] with
      | None => None
      | Some processes =>
          let processes := sort_desc processes in
          Some (Processes.mk (length processes) (py_prefix limit processes))
      end
  end.

(** *** collect_system_snapshot over the detailed collectors *)

Record sources := {
  src_now : instant;
  src_cpu : cpu_source;
  src_memory : memory_source;
  src_disk : disk_provider;
  src_network : network_source;
  src_processes : option (list proc_outcome)
}.

(** The provider the queries amount to; the snapshot asks for the
    processes with the default limit, 10. *)
Definition provider_of (s : sources) : provider :=
  {| prov_now := src_now s;
     prov_cpu := get_cpu_info (src_cpu s);
     prov_memory := get_memory_info (src_memory s);
     prov_disk := src_disk s;
     prov_network := get_network_info (src_network s);
     prov_processes := get_process_info 10 (src_processes s) |}.

End Collectors.

(** ** display_current_status *)

Definition gib : Q := inject_Z (1024 ^ 3).

Definition cpu_load_line (cpu : option Cpu.t) : string :=
  ("  📊 Загрузка: " ++ format_1f (or_zero (option_map Cpu.cpu_percent cpu)) ++ "%")%string.

(** [cpu.get('cpu_freq_current')], tested for truth. *)
Definition shown_frequency (cpu : option Cpu.t) : option Q :=
  match cpu with
  | Some c =>
      match Cpu.cpu_freq_current c with
      | Some f => if truthy f then Some f else None
      | None => None
      end
  | None => None
  end.

Definition cpu_freq_line (f : Q) : string :=
  ("  ⚡ Частота: " ++ format_0f f ++ " MHz")%string.

Definition memory_percent_line (memory : option Memory.t) : string :=
  ("  📊 Использовано: "
   ++ format_1f (or_zero (option_map Memory.memory_percent memory)) ++ "%")%string.

Definition memory_volume_line (memory : option Memory.t) : string :=
  let memory_total_gb :=
    inject_Z match memory with Some m => Memory.memory_total m | None => 0%Z end / gib in
  let memory_used_gb :=
    inject_Z match memory with Some m => Memory.memory_used m | None => 0%Z end / gib in
  ("  💽 Объем: " ++ format_1f memory_used_gb ++ " GB / "
   ++ format_1f memory_total_gb ++ " GB")%string.

Definition disk_line (disk_info : DiskInfo.t) : string :=
  let total_gb := inject_Z (DiskInfo.total disk_info) / gib in
  let used_gb := inject_Z (DiskInfo.used disk_info) / gib in
  ("  " ++ DiskInfo.device disk_info ++ ": " ++ format_1f (DiskInfo.percent disk_info)
   ++ "% (" ++ format_1f used_gb ++ "/" ++ format_1f total_gb ++ " GB)")%string.

(** The line of one process, given its name. *)
Definition process_line (name : string) (proc : Proc.t) : string :=
  ("  " ++ ljust 20 (substring 0 20 name) ++ " "
   ++ rjust 6 (format_1f (or_0 (Proc.cpu_percent proc))) ++ "% CPU "
   ++ rjust 6 (format_1f (or_0 (Proc.memory_percent proc))) ++ "% RAM")%string.

(** The loop over the first five processes: slicing the name of a
    process whose [name] is [None] raises [TypeError]; the lines of the
    processes before it are already printed.  The flag tells whether
    the loop ran to its end. *)
Fixpoint process_lines (procs : list Proc.t) (printed : list string)
  : list string * bool :=
  match procs with
  | [] => (printed, true)
  | proc :: rest =>
      match Proc.name proc with
      | None => (printed, false)
      | Some name => process_lines rest (printed ++ [process_line name proc])
      end
  end.

(** [display_current_status]: the lines printed and the value returned
    ([None]: the call raises). *)
Definition display_current_status (p : provider) : list string * option Snapshot.t :=
  let snapshot := collect_system_snapshot p in
  let printed := ["🖥️  ТЕКУЩИЙ СТАТУС СИСТЕМЫ"%string; str_repeat "=" 50] in
  let cpu := Snapshot.cpu snapshot in
  let printed := printed ++ [(nl ++ "🔥 ПРОЦЕССОР:")%string; cpu_load_line cpu] in
  let printed :=
    match shown_frequency cpu with
    | Some f => printed ++ [cpu_freq_line f]
    | None => printed
    end in
  let memory := Snapshot.memory snapshot in
  let printed :=
    printed ++ [(nl ++ "💾 ПАМЯТЬ:")%string; memory_percent_line memory;
                memory_volume_line memory] in
  let printed := printed ++ [(nl ++ "💿 ДИСКИ:")%string] in
  let printed :=
    fold_left (fun printed disk_info => printed ++ [disk_line disk_info])
      (get_disks snapshot) printed in
  let processes := Snapshot.processes snapshot in
  let printed := printed ++ [(nl ++ "⚙️  ТОП ПРОЦЕССОВ по CPU:")%string] in
  let top :=
    match processes with
    | Some ps => Processes.top_processes ps
    | None => []
    end in
  let (printed, finished) := process_lines (firstn 5 top) printed in
  (printed, if finished then Some snapshot else None).

(** ** The loop iteration with the sleep that can fail *)

(** [time.sleep(interval)] raises [ValueError] on a negative length. *)
Definition sleep_raises (interval : Z) : bool := (interval <? 0)%Z.

(** How an iteration of [monitor_loop] ends for its thread. *)
Inductive pass_end :=
| BackToLoopTest
| ThreadDies.

Section LoopPass.

Variable text : Type.
Variable json_dump : list Snapshot.t -> text.

(** One iteration of [monitor_loop] with both [time.sleep] calls.  When
    the sleep of the [try] block raises, the handler prints and sleeps
    for the same interval: that call raises as well, outside any
    handler, and the exception ends the thread. *)
Definition monitor_loop_pass (interval : Z) (inp : tick_input text)
           (self : SystemMonitor) (w : world text)
  : SystemMonitor * world text * pass_end :=
  let snapshot := collect_system_snapshot (tick_provider inp) in
  let self := set_log_data (deque_append 1000 (log_data self) snapshot) self in
  let new_alerts := check_thresholds (thresholds self) snapshot in
  let self := set_alerts (alerts self ++ new_alerts) self in
  let self :=
    if 100 <? length (alerts self)
    then set_alerts (lastn 100 (alerts self)) self
    else self in
  let (self, w) :=
    if length (log_data self) mod 10 =? 0
    then save_log_data json_dump (tick_write inp) self w
    else (self, w) in
  if sleep_raises interval
  then (self, emit (EvPrint MsgLoopError) w, ThreadDies)
  else (self, emit (EvSleep interval) w, BackToLoopTest).

End LoopPass.

(** ** What a restart would find *)

(** The records a constructor would read from the store of a machine,
    before it cuts them to the last 1000: none when the file is missing,
    unreadable, or does not parse to an array. *)
Definition stored_records {text : Type} (json_load : text -> option json_value)
           (m : machine text) : list Snapshot.t :=
  match fs (env m) (log_file (engine m)) with
  | FileContent contents =>
      match json_load contents with
      | Some (JArray data) => data
      | _ => []
      end
  | _ => []
  end.

(** A move whose write, if it makes one, succeeds. *)
Definition write_succeeds {text : Type} (l : label text) : bool :=
  match l with
  | LStop WriteOk => true
  | LStop _ => false
  | LTick _ inp =>
      match tick_write inp with
      | WriteOk => true
      | _ => false
      end
  | _ => true
  end.

(** The history is what the store holds followed by the snapshots
    appended since the last save, and these are fewer than the length of
    the history is past a multiple of 10. *)
Definition recoverable {text : Type} (json_load : text -> option json_value)
           (m : machine text) : Prop :=
  exists s,
    log_data (engine m) = lastn 1000 (stored_records json_load m ++ s)
    /\ (length s <= length (log_data (engine m)) mod 10)%nat.

(** Descending order of the sort keys: every item is at least as busy
    as all the items after it. *)
Fixpoint sorted_desc (l : list Proc.t) : Prop :=
  match l with
  | [] => True
  | a :: rest =>
      Forall (fun b => Collectors.cpu_key b <= Collectors.cpu_key a) rest
      /\ sorted_desc rest
  end.

(** The processes whose information could be read, in the order of the
    enumeration. *)
Definition readable (procs : list Collectors.proc_outcome) : list Proc.t :=
  flat_map (fun p =>
              match p with
              | Collectors.ProcInfo info => [info]
              | _ => []
              end) procs.

(** The entries of the partitions whose usage could be read, in the order
    of the enumeration. *)
Definition readable_disks (ps : list partition) : list DiskInfo.t :=
  flat_map (fun p =>
              match part_usage p with
              | UsageOk total used free =>
                  [DiskInfo.mk (part_device p) (part_mountpoint p) (part_fstype p)
                     total used free (inject_Z used / inject_Z total * 100)]
              | _ => []
              end) ps.

(** A partition that does not make [get_disk_info] fail: its usage is
    read with a non-zero total, or refused for lack of permission. *)
Definition usable (p : partition) : Prop :=
  match part_usage p with
  | UsageOk total _ _ => total <> 0%Z
  | UsagePermissionError => True
  | UsageOtherError => False
  end.

(** A partition whose used space, if read, lies between 0 and its
    total. *)
Definition sane (p : partition) : Prop :=
  match part_usage p with
  | UsageOk total used _ => (0 <= used <= total)%Z
  | _ => True
  end.




Definition is_proc_error (p : Collectors.proc_outcome) : bool :=
  match p with
  | Collectors.ProcError => true
  | _ => false
  end.

(** The number of items [l[:limit]] asks for. *)
Definition prefix_length {A : Type} (limit : Z) (l : list A) : nat :=
  if (limit <? 0)%Z then (length l - Z.to_nat (- limit))%nat else Z.to_nat limit.

(** Sample processes and network tables. *)
Definition sample_proc (pid : Z) (name : option string) (cpu : option Q) : Proc.t :=
  Proc.mk pid name cpu (Some 1) (Some "running"%string).

Definition sample_procs : list Collectors.proc_outcome :=
  [Collectors.ProcInfo (sample_proc 1 (Some "init"%string) (Some 5));
   Collectors.ProcGone;
   Collectors.ProcInfo (sample_proc 2 None None);
   Collectors.ProcInfo (sample_proc 3 (Some "python"%string) (Some 50));
   Collectors.ProcInfo (sample_proc 4 (Some "bash"%string) (Some 5))].

Definition sample_network : Collectors.network_source :=
  {| Collectors.net_if_addrs :=
       Some [("lo"%string, [Address.mk "AF_INET" (Some "127.0.0.1"%string) None None]);
             ("tun0"%string, [])];
     Collectors.net_if_stats := Some [("lo"%string, true)];
     Collectors.net_io_counters := Some None |}.

(** * Properties *)

(** ** Numbers and sequences *)

Lemma Qgt_bool_iff (a b : Q) : Qgt_bool a b = true <-> (b < a)%Q.
Proof.
  unfold Qgt_bool. rewrite negb_true_iff.
  split; intro H.
  - apply Qnot_le_lt. intro L. apply Qle_bool_iff in L. congruence.
  - destruct (Qle_bool a b) eqn:E; [|reflexivity].
    apply Qle_bool_iff in E. exfalso. exact (Qlt_not_le _ _ H E).
Qed.

Lemma exceeds_iff (v t : Q) : exceeds v t = true <-> (t < v)%Q.
Proof.
  unfold exceeds. destruct (Qlt_le_dec t v) as [L|L]; split; intro H; auto.
  - discriminate.
  - exfalso. exact (Qlt_not_le _ _ H L).
Qed.

Lemma Qgt_bool_exceeds (v t : Q) : Qgt_bool v t = exceeds v t.
Proof.
  destruct (exceeds v t) eqn:E.
  - apply Qgt_bool_iff, exceeds_iff, E.
  - destruct (Qgt_bool v t) eqn:G; [|reflexivity].
    apply Qgt_bool_iff, exceeds_iff in G. congruence.
Qed.

Local Open Scope nat_scope.

Lemma length_lastn {A : Type} (n : nat) (l : list A) :
  length (lastn n l) = Nat.min n (length l).
Proof. unfold lastn. rewrite length_skipn. lia. Qed.

Lemma lastn_all {A : Type} (n : nat) (l : list A) :
  length l <= n -> lastn n l = l.
Proof.
  intro H. unfold lastn. replace (length l - n) with 0 by lia. reflexivity.
Qed.

Lemma lastn_app_lastn {A : Type} (n : nat) (l xs : list A) :
  lastn n (lastn n l ++ xs) = lastn n (l ++ xs).
Proof.
  destruct (Nat.le_gt_cases (length l) n) as [H|H].
  - now rewrite (lastn_all l H).
  - unfold lastn at 1 3. rewrite !length_app, length_lastn.
    unfold lastn. rewrite !skipn_app, skipn_skipn, length_skipn.
    f_equal; f_equal; lia.
Qed.

Lemma fold_left_snoc_if {A B : Type} (p : B -> bool) (f : B -> A) (l : list B) :
  forall acc,
    fold_left (fun acc x => if p x then acc ++ [f x] else acc) l acc
    = acc ++ map f (filter p l).
Proof.
  induction l as [|x l IH]; intro acc; simpl.
  - now rewrite app_nil_r.
  - rewrite IH. destruct (p x); simpl; [now rewrite <- app_assoc | reflexivity].
Qed.

(** ** The bounded history *)

Lemma deque_append_lastn {A : Type} (maxlen : nat) (d : list A) (x : A) :
  length d <= maxlen -> deque_append maxlen d x = lastn maxlen (d ++ [x]).
Proof.
  intro H. unfold deque_append, lastn. rewrite length_app. simpl.
  destruct (Nat.ltb_spec maxlen (length d + 1)) as [L|L].
  - replace (length d + 1 - maxlen) with 1 by lia.
    destruct d; reflexivity.
  - replace (length d + 1 - maxlen) with 0 by lia. reflexivity.
Qed.

Lemma length_deque_append {A : Type} (maxlen : nat) (d : list A) (x : A) :
  length d <= maxlen ->
  length (deque_append maxlen d x) = Nat.min maxlen (length d + 1).
Proof.
  intro H. rewrite deque_append_lastn, length_lastn, length_app by assumption.
  reflexivity.
Qed.

Lemma deque_extend_lastn {A : Type} (maxlen : nat) (xs : list A) :
  forall d, length d <= maxlen ->
            deque_extend maxlen d xs = lastn maxlen (d ++ xs).
Proof.
  unfold deque_extend.
  induction xs as [|x xs IH]; intros d H; simpl.
  - rewrite app_nil_r. symmetry. now apply lastn_all.
  - rewrite IH.
    + rewrite deque_append_lastn by assumption.
      rewrite lastn_app_lastn, <- app_assoc. reflexivity.
    + rewrite length_deque_append by assumption. lia.
Qed.

Lemma lastn_app_long {A : Type} (n : nat) (d xs : list A) :
  n <= length xs -> lastn n (d ++ xs) = lastn n xs.
Proof.
  intro H. unfold lastn. rewrite length_app, skipn_app.
  rewrite skipn_all2 by lia. simpl. f_equal. lia.
Qed.

(** C2: more than [maxlen] appends to a deque of capacity [maxlen] (1000
    for the history of the engine) leave exactly [maxlen] entries, namely
    the last [maxlen] appended, in the order of the appends; the function
    is total, so the older entries go without an error. *)
Theorem history_keeps_last_appended {A : Type} (maxlen : nat) (d xs : list A) :
  length d <= maxlen ->
  maxlen < length xs ->
  length (deque_extend maxlen d xs) = maxlen
  /\ deque_extend maxlen d xs = lastn maxlen xs.
Proof.
  intros Hd Hxs.
  rewrite deque_extend_lastn by assumption.
  rewrite lastn_app_long by lia.
  split; [|reflexivity].
  rewrite length_lastn. lia.
Qed.

Lemma history_keeps_last_appended_witness :
  deque_extend 3 [5] [10; 20; 30; 40] = [20; 30; 40].
Proof.
  refine (eq_trans (proj2 (@history_keeps_last_appended nat 3 [5] [10; 20; 30; 40] _ _)) _).
  - simpl. lia.
  - simpl. lia.
  - reflexivity.
Defined.

(** ** Threshold evaluation *)

Lemma check_thresholds_eq (t : Thresholds.t) (s : Snapshot.t) :
  check_thresholds t s = spec_alerts t s.
Proof.
  unfold check_thresholds, spec_alerts.
  rewrite fold_left_snoc_if with
    (p := fun d => Qgt_bool (DiskInfo.percent d) (Thresholds.disk_percent t))
    (f := disk_alert t s).
  rewrite !Qgt_bool_exceeds.
  rewrite (filter_ext _ (fun d => exceeds (DiskInfo.percent d) (Thresholds.disk_percent t)))
    by (intro d; apply Qgt_bool_exceeds).
  unfold cpu_alert, memory_alert.
  destruct (exceeds (or_zero (get_cpu_percent s)) (Thresholds.cpu_percent t));
    destruct (exceeds (or_zero (get_memory_percent s)) (Thresholds.memory_percent t));
    simpl; reflexivity.
Qed.

Lemma disk_alerts_type (t : Thresholds.t) (s : Snapshot.t) (l : list DiskInfo.t) (a : Alert.t) :
  In a (map (disk_alert t s) l) -> Alert.type a = disk_high.
Proof.
  intro H. apply in_map_iff in H. destruct H as (d & <- & _). reflexivity.
Qed.

(** C1: [check_thresholds] returns exactly the sequence of the rule: a
    [cpu_high] alert iff the cpu percent is strictly greater than its
    threshold, then a [memory_high] alert iff the memory percent is
    strictly greater than its threshold, then one [disk_high] alert per
    partition whose percent is strictly greater than the disk threshold, in
    the order of the partitions; a value equal to the threshold gives no
    alert; each alert carries the value measured and the threshold. *)
Theorem check_thresholds_exact (t : Thresholds.t) (s : Snapshot.t) :
  check_thresholds t s = spec_alerts t s
  /\ (forall v th : Q, exceeds v th = true <-> (th < v)%Q)
  /\ (forall th : Q, exceeds th th = false)
  /\ ((exists a, In a (check_thresholds t s) /\ Alert.type a = cpu_high)
      <-> (Thresholds.cpu_percent t < or_zero (get_cpu_percent s))%Q)
  /\ ((exists a, In a (check_thresholds t s) /\ Alert.type a = memory_high)
      <-> (Thresholds.memory_percent t < or_zero (get_memory_percent s))%Q)
  /\ (forall a, In a (check_thresholds t s) ->
                match Alert.type a with
                | cpu_high =>
                    Alert.value a = or_zero (get_cpu_percent s)
                    /\ Alert.threshold a = Thresholds.cpu_percent t
                | memory_high =>
                    Alert.value a = or_zero (get_memory_percent s)
                    /\ Alert.threshold a = Thresholds.memory_percent t
                | disk_high =>
                    Alert.threshold a = Thresholds.disk_percent t
                    /\ exists d, In d (get_disks s)
                                 /\ Alert.value a = DiskInfo.percent d
                                 /\ (Thresholds.disk_percent t < DiskInfo.percent d)%Q
                end).
Proof.
  split; [apply check_thresholds_eq|].
  split; [apply exceeds_iff|].
  split.
  { intro th. destruct (exceeds th th) eqn:E; [|reflexivity].
    apply exceeds_iff in E. exfalso. exact (Qlt_irrefl _ E). }
  rewrite check_thresholds_eq. unfold spec_alerts.
  split; [|split].
  - rewrite <- exceeds_iff.
    destruct (exceeds (or_zero (get_cpu_percent s)) (Thresholds.cpu_percent t)).
    + split; [reflexivity|]. intros _. exists (cpu_alert t s). split; [|reflexivity].
      simpl. now left.
    + split; [|discriminate]. intros (a & Ha & Ty). simpl in Ha.
      apply in_app_or in Ha. destruct Ha as [Ha|Ha].
      * destruct (exceeds (or_zero (get_memory_percent s)) (Thresholds.memory_percent t));
          simpl in Ha; [destruct Ha as [<-|[]]; discriminate | destruct Ha].
      * apply disk_alerts_type in Ha. congruence.
  - rewrite <- exceeds_iff.
    destruct (exceeds (or_zero (get_memory_percent s)) (Thresholds.memory_percent t)).
    + split; [reflexivity|]. intros _. exists (memory_alert t s). split; [|reflexivity].
      apply in_or_app. right. simpl. now left.
    + split; [|discriminate]. intros (a & Ha & Ty).
      apply in_app_or in Ha. destruct Ha as [Ha|Ha].
      * destruct (exceeds (or_zero (get_cpu_percent s)) (Thresholds.cpu_percent t));
          simpl in Ha; [destruct Ha as [<-|[]]; discriminate | destruct Ha].
      * simpl in Ha. apply disk_alerts_type in Ha. congruence.
  - intros a Ha. apply in_app_or in Ha. destruct Ha as [Ha|Ha].
    { destruct (exceeds (or_zero (get_cpu_percent s)) (Thresholds.cpu_percent t));
        simpl in Ha; [destruct Ha as [<-|[]]; simpl; auto | destruct Ha]. }
    apply in_app_or in Ha. destruct Ha as [Ha|Ha].
    { destruct (exceeds (or_zero (get_memory_percent s)) (Thresholds.memory_percent t));
        simpl in Ha; [destruct Ha as [<-|[]]; simpl; auto | destruct Ha]. }
    apply in_map_iff in Ha. destruct Ha as (d & <- & Hd).
    apply filter_In in Hd. destruct Hd as [Hd Hx]. simpl.
    split; [reflexivity|]. exists d. split; [assumption|].
    split; [reflexivity|]. now apply exceeds_iff.
Qed.

(** A cpu percent of 85 against the threshold 80 gives exactly one
    [cpu_high] alert with value 85 and threshold 80; a cpu percent equal
    to the threshold gives none. *)
Example check_thresholds_cpu_85 :
  map (fun a => (Alert.type a, Alert.value a, Alert.threshold a, Alert.message a))
    (check_thresholds Thresholds.default (sample_snapshot 0 85 40))
  = [(cpu_high, 85%Q, 80%Q, "Высокая загрузка CPU: 85.0%"%string)]
  /\ check_thresholds Thresholds.default (sample_snapshot 0 80 85) = [].
Proof. split; reflexivity. Qed.

(** Two partitions above the disk threshold give two [disk_high] alerts
    in the order of the partitions; the one at the threshold gives none. *)
Example check_thresholds_two_disks :
  map (fun a => (Alert.type a, Alert.value a))
    (check_thresholds Thresholds.default
       (Snapshot.mk 0 None None
          (Some (Disk.mk [DiskInfo.mk "/dev/sda1" "/" "ext4" 100 95 5 95;
                          DiskInfo.mk "/dev/sdb1" "/srv" "ext4" 100 90 10 90;
                          DiskInfo.mk "/dev/sdc1" "/home" "ext4" 100 99 1 99] None))
          None None))
  = [(disk_high, 95%Q); (disk_high, 99%Q)].
Proof. reflexivity. Qed.

(** ** Disk collection *)

Lemma disk_loop_zero_total (ps : list partition) (q : partition) (used free : Z) :
  In q ps -> part_usage q = UsageOk 0 used free ->
  forall disks, disk_loop ps disks = None.
Proof.
  induction ps as [|p ps IH]; intros Hin Hq disks; [destruct Hin|].
  simpl. destruct Hin as [->|Hin].
  - rewrite Hq. reflexivity.
  - destruct (part_usage p) as [total u f| |]; auto.
    destruct (true_div u total); auto.
Qed.

Lemma disk_loop_percent (ps : list partition) :
  forall disks out,
    Forall percent_computed disks -> disk_loop ps disks = Some out ->
    Forall percent_computed out.
Proof.
  induction ps as [|p ps IH]; intros disks out F H; simpl in H.
  - now injection H as <-.
  - destruct (part_usage p) as [total u f| |]; [|eauto|discriminate].
    unfold true_div in H. destruct (Z.eqb_spec total 0) as [E|E]; [discriminate|].
    eapply IH; [|exact H].
    apply Forall_app. split; [assumption|].
    constructor; [|constructor]. split; simpl; [assumption|reflexivity].
Qed.

Lemma get_disk_info_percent (p : disk_provider) (d : Disk.t) :
  get_disk_info p = Some d -> Forall percent_computed (Disk.disks d).
Proof.
  unfold get_disk_info.
  destruct (disk_partitions p) as [ps|]; [|discriminate].
  destruct (disk_loop ps []) as [disks|] eqn:L; [|discriminate].
  destruct (disk_io_counters p) as [io|]; [|discriminate].
  intro H. injection H as <-. cbn [Disk.disks].
  eapply disk_loop_percent; [|exact L]. constructor.
Qed.

(** C10: [get_disk_info] computes each percent as [used / total * 100]
    without a guard on [total]; a partition that reports [total = 0]
    makes the division fail outside the permission handler, and the
    whole disk reading of the snapshot is empty, whatever the other
    partitions report. *)
Theorem zero_total_empties_disk_reading
        (pr : provider) (ps : list partition) (q : partition) (used free : Z) :
  disk_partitions (prov_disk pr) = Some ps ->
  In q ps ->
  part_usage q = UsageOk 0 used free ->
  (forall p d, get_disk_info p = Some d -> Forall percent_computed (Disk.disks d))
  /\ true_div used 0 = None
  /\ get_disk_info (prov_disk pr) = None
  /\ Snapshot.disk (collect_system_snapshot pr) = None
  /\ get_disks (collect_system_snapshot pr) = [].
Proof.
  intros Hps Hin Hq.
  assert (G : get_disk_info (prov_disk pr) = None).
  { unfold get_disk_info. rewrite Hps.
    now rewrite (disk_loop_zero_total ps q Hin Hq). }
  split; [exact get_disk_info_percent|].
  split; [reflexivity|]. split; [exact G|].
  unfold get_disks, collect_system_snapshot. simpl. rewrite G. split; reflexivity.
Qed.

Lemma zero_total_empties_disk_reading_witness :
  get_disk_info
    (prov_disk (sample_provider 0 [sample_partition "/dev/sda1" (UsageOk 100 50 50);
                                   sample_partition "/dev/loop0" (UsageOk 0 0 0)]))
  = None.
Proof.
  refine (proj1 (proj2 (proj2 (zero_total_empties_disk_reading
                                 (sample_provider 0 _)
                                 (sample_partition "/dev/loop0" _) _ _ _)))).
  - reflexivity.
  - simpl. right. left. reflexivity.
  - reflexivity.
Defined.

(** A partition that raises [PermissionError] is skipped and the others
    are kept: only the failed division discards the whole reading. *)
Example permission_error_skips_one_partition :
  option_map (fun d => map DiskInfo.device (Disk.disks d))
    (get_disk_info
       (prov_disk (sample_provider 0 [sample_partition "/dev/sda1" (UsageOk 100 50 50);
                                      sample_partition "/dev/sdb1" UsagePermissionError])))
  = Some ["/dev/sda1"%string].
Proof. reflexivity. Qed.

(** ** Statistics *)

Local Open Scope Q_scope.

Lemma truthy_spec (v : Q) : truthy v = if Qeq_dec v 0 then false else true.
Proof.
  unfold truthy. destruct (Qeq_dec v 0) as [E|E].
  - apply Qeq_bool_iff in E. now rewrite E.
  - destruct (Qeq_bool v 0) eqn:B; [|reflexivity].
    apply Qeq_bool_iff in B. contradiction.
Qed.

Lemma readings_surviving (get : Snapshot.t -> option Q) (data : list Snapshot.t) :
  readings get data = surviving get data.
Proof.
  unfold readings, surviving.
  induction data as [|e data IH]; [reflexivity|].
  simpl. destruct (get e) as [v|] eqn:G; [|exact IH].
  rewrite truthy_spec. destruct (Qeq_dec v 0); [exact IH|].
  simpl. rewrite G. simpl. now rewrite IH.
Qed.



Lemma py_max_spec (rest : list Q) :
  forall first,
    let r := py_max first rest in
    (r = first \/ In r rest) /\ first <= r /\ Forall (fun x => x <= r) rest.
Proof.
  unfold py_max.
  induction rest as [|x rest IH]; intro first; simpl.
  - split; [now left|]. split; [apply Qle_refl|constructor].
  - destruct (IH (if Qgt_bool x first then x else first)) as (Hin & Hle & Hall).
    destruct (Qgt_bool x first) eqn:G.
    + apply Qgt_bool_iff in G.
      split; [destruct Hin as [->|Hin]; auto|].
      split; [eapply Qle_trans; [apply Qlt_le_weak, G|exact Hle]|].
      constructor; assumption.
    + assert (x <= first) as L.
      { apply Qnot_lt_le. intro C. apply Qgt_bool_iff in C. congruence. }
      split; [destruct Hin as [->|Hin]; auto|].
      split; [exact Hle|].
      constructor; [eapply Qle_trans; eassumption|assumption].
Qed.

Lemma py_min_spec (rest : list Q) :
  forall first,
    let r := py_min first rest in
    (r = first \/ In r rest) /\ r <= first /\ Forall (fun x => r <= x) rest.
Proof.
  unfold py_min.
  induction rest as [|x rest IH]; intro first; simpl.
  - split; [now left|]. split; [apply Qle_refl|constructor].
  - destruct (IH (if Qgt_bool first x then x else first)) as (Hin & Hle & Hall).
    destruct (Qgt_bool first x) eqn:G.
    + apply Qgt_bool_iff in G.
      split; [destruct Hin as [->|Hin]; auto|].
      split; [eapply Qle_trans; [exact Hle|apply Qlt_le_weak, G]|].
      constructor; assumption.
    + assert (first <= x) as L.
      { apply Qnot_lt_le. intro C. apply Qgt_bool_iff in C. congruence. }
      split; [destruct Hin as [->|Hin]; auto|].
      split; [exact Hle|].
      constructor; [eapply Qle_trans; eassumption|assumption].
Qed.


Lemma get_statistics_unfold (now : instant) (hours : Z) (self : SystemMonitor) :
  get_statistics now hours self
  = match window now hours (log_data self) with
    | [] => None
    | recent =>
        Some (Statistics.mk hours (length recent)
                (stat_of (readings get_cpu_percent recent))
                (stat_of (readings get_memory_percent recent)))
    end.
Proof.
  unfold get_statistics, window.
  destruct (log_data self) as [|e l]; [reflexivity|].
  cbv zeta. destruct (filter _ (e :: l)); reflexivity.
Qed.



(** A zero reading is skipped: of the in-window cpu readings 0 and 30
    only 30 counts. *)
Example get_statistics_skips_zero :
  option_map (fun st => (Qred (Stat.avg (Statistics.cpu st)),
                         Stat.max (Statistics.cpu st), Stat.min (Statistics.cpu st),
                         Qred (Stat.avg (Statistics.memory st))))
    (get_statistics 7200000000 1
       (sample_monitor [sample_snapshot 0 10 40; sample_snapshot 3600000000 0 50;
                        sample_snapshot 3660000000 30 60]))
  = Some (30, 30, 30, 55).
Proof. reflexivity. Qed.

(** C9 (as the code has it): [get_statistics] only reads the engine, and
    its result is a function of the history, of the window and of the
    clock reading; two calls with the same window and no append in between
    return the same result whenever no snapshot of the history lies
    between the two cutoffs, in particular when the clock reads the same. *)
Theorem get_statistics_stable (now1 now2 : instant) (hours : Z) (self : SystemMonitor) :
  (forall e, In e (log_data self) ->
             (now1 - timedelta_hours hours <= Snapshot.timestamp e)%Z
             <-> (now2 - timedelta_hours hours <= Snapshot.timestamp e)%Z) ->
  get_statistics now1 hours self = get_statistics now2 hours self.
Proof.
  intro H. rewrite !get_statistics_unfold.
  assert (window now1 hours (log_data self) = window now2 hours (log_data self)) as ->.
  { unfold window. apply filter_ext_in. intros e He.
    specialize (H e He). rewrite <- !Z.leb_le in H.
    destruct (now1 - timedelta_hours hours <=? Snapshot.timestamp e)%Z,
             (now2 - timedelta_hours hours <=? Snapshot.timestamp e)%Z;
      try reflexivity; destruct H as [H1 H2];
      [symmetry; now apply H1 | now apply H2]. }
  reflexivity.
Qed.

Lemma get_statistics_stable_witness :
  get_statistics 3600000000 1 (sample_monitor [sample_snapshot 1800000000 10 40])
  = get_statistics 3660000000 1 (sample_monitor [sample_snapshot 1800000000 10 40]).
Proof.
  apply get_statistics_stable.
  intros e [<-|[]]. simpl. unfold timedelta_hours. lia.
Defined.

(** C9 (as stated) fails: with the history and the window unchanged, a
    call one hour and a microsecond after the only snapshot finds it out
    of the window that the call at the snapshot's instant found it in. *)
Lemma get_statistics_depends_on_clock :
  get_statistics 0 1 (sample_monitor [sample_snapshot 0 10 40])
  <> get_statistics 3600000001 1 (sample_monitor [sample_snapshot 0 10 40]).
Proof. discriminate. Qed.

(** ** The engine *)

Local Open Scope nat_scope.

Section EngineProperties.

Context {text : Type}.
Variable json_dump : list Snapshot.t -> text.
Variable json_load : text -> option json_value.

Local Abbreviation world := (world text).
Local Abbreviation machine := (machine text).
Local Abbreviation label := (label text).

Lemma skipn_length_app {A : Type} (l x : list A) : skipn (length l) (l ++ x) = x.
Proof.
  rewrite skipn_app, skipn_all, Nat.sub_diag. reflexivity.
Qed.

(** *** Persistence *)


Lemma save_log_data_trace (o : write_outcome text) (self : SystemMonitor) (w : world) :
  trace (snd (save_log_data json_dump o self w))
  = trace w ++ save_events o (log_file self).
Proof.
  destruct o; simpl; try rewrite <- app_assoc; reflexivity.
Qed.

Lemma save_log_data_ok (self : SystemMonitor) (w : world) :
  fs (snd (save_log_data json_dump WriteOk self w)) (log_file self)
  = FileContent (json_dump (log_data self)).
Proof. simpl. now rewrite String.eqb_refl. Qed.

Lemma load_array (self : SystemMonitor) (w : world) (contents : text)
      (data : list Snapshot.t) :
  fs w (log_file self) = FileContent contents ->
  json_load contents = Some (JArray data) ->
  load_log_data json_load self w
  = (set_log_data (deque_extend 1000 (log_data self) (lastn 1000 data)) self, w).
Proof.
  intros F J. unfold load_log_data. now rewrite F, J.
Qed.

Lemma init_log_data_bounded (path : string) (w : world) :
  length (log_data (fst (__init__ json_load path w))) <= 1000.
Proof.
  unfold __init__, load_log_data. cbn [log_file].
  destruct (fs w path) as [| |contents]; [simpl; lia | simpl; lia |].
  destruct (json_load contents) as [[data|]|]; [|simpl; lia | simpl; lia].
  cbn [fst log_data set_log_data].
  rewrite deque_extend_lastn by (simpl; lia).
  rewrite length_lastn. lia.
Qed.

(** *** One iteration of the loop *)

Lemma body_engine (interval : Z) (inp : tick_input text) (self : SystemMonitor) (w : world) :
  fst (monitor_loop_body json_dump interval inp self w) = after_tick inp self.
Proof.
  unfold monitor_loop_body, after_tick. cbv zeta.
  cbn [alerts set_alerts set_log_data thresholds log_data log_file monitoring].
  set (a := alerts self ++ _).
  destruct (Nat.ltb_spec 100 (length a)) as [L|L];
    [|rewrite (lastn_all a) by lia];
    cbn [alerts set_alerts set_log_data thresholds log_data log_file monitoring];
    match goal with
    | |- context [if ?c then _ else _] => destruct c
    end;
    try destruct (tick_write inp); reflexivity.
Qed.

Lemma body_trace (interval : Z) (inp : tick_input text) (self : SystemMonitor) (w : world) :
  trace (snd (monitor_loop_body json_dump interval inp self w))
  = trace w ++ tick_events interval inp self.
Proof.
  unfold monitor_loop_body, tick_events, after_tick. cbv zeta.
  cbn [alerts set_alerts set_log_data thresholds log_data log_file monitoring].
  set (a := alerts self ++ _).
  destruct (100 <? length a);
    cbn [alerts set_alerts set_log_data thresholds log_data log_file monitoring];
    match goal with
    | |- context [if ?c then _ else _] => destruct c
    end;
    try destruct (tick_write inp); cbn; rewrite <- ?app_assoc; reflexivity.
Qed.

(** *** Steps and runs *)

Lemma step_tick (i : nat) (inp : tick_input text) (m m' : machine) :
  step json_dump (LTick i inp) m = Some m' ->
  exists interval,
    nth_error (threads m) i = Some (InTick interval)
    /\ engine m' = after_tick inp (engine m)
    /\ trace (env m') = trace (env m) ++ tick_events interval inp (engine m)
    /\ threads m' = set_nth i (AtLoopTest interval) (threads m).
Proof.
  unfold step.
  destruct (nth_error (threads m) i) as [[iv|iv|]|]; try discriminate.
  pose proof (body_engine iv inp (engine m) (env m)) as E.
  pose proof (body_trace iv inp (engine m) (env m)) as T.
  destruct (monitor_loop_body json_dump iv inp (engine m) (env m)) as [self' w'].
  intro H. injection H as <-. exists iv. repeat split; assumption.
Qed.

Lemma stop_monitoring_engine (o : write_outcome text) (self : SystemMonitor) (w : world) :
  fst (stop_monitoring json_dump o self w)
  = if monitoring self then set_monitoring false self else self.
Proof.
  unfold stop_monitoring. destruct (monitoring self); [|reflexivity].
  destruct o; reflexivity.
Qed.

Lemma stop_monitoring_trace (o : write_outcome text) (self : SystemMonitor) (w : world) :
  trace (snd (stop_monitoring json_dump o self w))
  = trace w ++ (if monitoring self
                then save_events o (log_file self) ++ [EvPrint MsgStopped]
                else []).
Proof.
  unfold stop_monitoring. destruct (monitoring self); [|now rewrite app_nil_r].
  destruct o; cbn; rewrite <- ?app_assoc; reflexivity.
Qed.

(** What a step does to the history, to the alerts and to the
    thresholds. *)
Lemma step_engine (l : label) (m m' : machine) :
  step json_dump l m = Some m' ->
  log_data (engine m') = deque_extend 1000 (log_data (engine m)) (collected [l])
  /\ alerts (engine m')
     = match l with
       | LTick _ inp =>
           lastn 100 (alerts (engine m) ++ produced (thresholds (engine m)) [l])
       | _ => alerts (engine m)
       end
  /\ thresholds (engine m')
     = match l with
       | LSetThreshold k v => update_thresholds k v (thresholds (engine m))
       | _ => thresholds (engine m)
       end.
Proof.
  destruct l as [iv|o|k v|i|i inp]; intro H.
  - injection H as <-. unfold start_monitoring.
    destruct (monitoring (engine m)); repeat split.
  - cbn in H.
    pose proof (stop_monitoring_engine o (engine m) (env m)) as E.
    destruct (stop_monitoring json_dump o (engine m) (env m)) as [self' w'].
    injection H as <-. cbn in E |- *. subst self'.
    destruct (monitoring (engine m)); repeat split.
  - injection H as <-. repeat split.
  - cbn in H. destruct (nth_error (threads m) i) as [[iv|iv|]|]; try discriminate.
    injection H as <-. repeat split.
  - apply step_tick in H. destruct H as (iv & _ & E & _). rewrite E.
    cbn. rewrite app_nil_r. repeat split.
Qed.

Lemma collected_cons (l : label) (ls : list label) :
  collected (l :: ls) = collected [l] ++ collected ls.
Proof. unfold collected. cbn. now rewrite app_nil_r. Qed.

Lemma length_collected (ls : list label) : length (collected ls) = count_ticks ls.
Proof.
  unfold collected, count_ticks.
  induction ls as [|[iv|o|k v|i|i inp] ls IH]; cbn; auto.
Qed.

Lemma deque_extend_app {A : Type} (n : nat) (d xs ys : list A) :
  deque_extend n d (xs ++ ys) = deque_extend n (deque_extend n d xs) ys.
Proof. unfold deque_extend. apply fold_left_app. Qed.

Lemma run_log_data (ls : list label) :
  forall m m', run json_dump ls m = Some m' ->
               log_data (engine m')
               = deque_extend 1000 (log_data (engine m)) (collected ls).
Proof.
  induction ls as [|l ls IH]; intros m m' H; cbn in H.
  - now injection H as <-.
  - destruct (step json_dump l m) as [m1|] eqn:S; [|discriminate].
    rewrite collected_cons, deque_extend_app.
    apply step_engine in S. destruct S as (<- & _). now apply IH.
Qed.

Lemma run_snoc (ls : list label) (l : label) :
  forall m0 m m', run json_dump ls m0 = Some m ->
                  step json_dump l m = Some m' ->
                  run json_dump (ls ++ [l]) m0 = Some m'.
Proof.
  induction ls as [|l0 ls IH]; intros m0 m m' R S; cbn [run app] in R |- *.
  - injection R as ->. now rewrite S.
  - destruct (step json_dump l0 m0); [eapply IH; eassumption|discriminate].
Qed.

Lemma run_thresholds_produced (l : label) (ls : list label) (t : Thresholds.t) :
  produced t (l :: ls)
  = produced t [l]
      ++ produced match l with
                  | LSetThreshold k v => update_thresholds k v t
                  | _ => t
                  end ls.
Proof.
  destruct l; cbn; rewrite ?app_nil_r; reflexivity.
Qed.

Lemma run_alerts (ls : list label) :
  forall m m', length (alerts (engine m)) <= 100 ->
               run json_dump ls m = Some m' ->
               alerts (engine m')
               = lastn 100 (alerts (engine m) ++ produced (thresholds (engine m)) ls).
Proof.
  induction ls as [|l ls IH]; intros m m' B H; cbn in H.
  - injection H as <-. cbn. rewrite app_nil_r. symmetry. now apply lastn_all.
  - destruct (step json_dump l m) as [m1|] eqn:S; [|discriminate].
    apply step_engine in S. destruct S as (_ & A & T).
    rewrite run_thresholds_produced, <- T.
    assert (alerts (engine m1)
            = lastn 100 (alerts (engine m) ++ produced (thresholds (engine m)) [l])) as A'.
    { rewrite A. destruct l; cbn; rewrite ?app_nil_r; try reflexivity;
        symmetry; now apply lastn_all. }
    rewrite (IH m1 m'); [|rewrite A', length_lastn; lia|assumption].
    rewrite A', lastn_app_lastn, <- app_assoc. reflexivity.
Qed.

Lemma saved_tick (i : nat) (inp : tick_input text) (m m' : machine) :
  step json_dump (LTick i inp) m = Some m' ->
  saved m m' = (length (log_data (engine m')) mod 10 =? 0).
Proof.
  intro H. apply step_tick in H. destruct H as (iv & _ & E & T & _).
  unfold saved, emitted. rewrite T, skipn_length_app, E.
  unfold tick_events.
  destruct (length (log_data (after_tick inp (engine m))) mod 10 =? 0); reflexivity.
Qed.

Lemma boot_engine (path : string) (w : world) :
  engine (boot json_load path w) = fst (__init__ json_load path w).
Proof.
  unfold boot. destruct (__init__ json_load path w). reflexivity.
Qed.

(** The history length after a run from the booted machine. *)
Lemma run_history_length (path : string) (w : world) (ls : list label) (m : machine) :
  run json_dump ls (boot json_load path w) = Some m ->
  length (log_data (engine m))
  = Nat.min 1000 (length (log_data (engine (boot json_load path w))) + count_ticks ls).
Proof.
  intro H. apply run_log_data in H. rewrite H.
  rewrite deque_extend_lastn
    by (rewrite boot_engine; apply init_log_data_bounded).
  rewrite length_lastn, length_app, length_collected. reflexivity.
Qed.

Lemma init_blank (path : string) (w : world) :
  __init__ json_load path w = load_log_data json_load (blank path) w.
Proof. reflexivity. Qed.

Lemma init_fields (path : string) (w : world) :
  let self := fst (__init__ json_load path w) in
  log_file self = path /\ monitoring self = false /\ alerts self = []
  /\ thresholds self = Thresholds.default.
Proof.
  rewrite init_blank. unfold load_log_data. cbn [blank log_file].
  destruct (fs w path) as [| |contents]; [repeat split..|].
  destruct (json_load contents) as [[data|]|]; repeat split.
Qed.

Lemma nth_error_set_nth {A : Type} (x : A) (l : list A) :
  forall i y, nth_error l i = Some y -> nth_error (set_nth i x l) i = Some x.
Proof.
  induction l as [|z l IH]; intros [|i] y H; try discriminate; cbn in *; eauto.
Qed.

(** The history of the engine after a run of more than 1000 iterations:
    the last 1000 snapshots collected, in order. *)
Lemma history_after_long_run (path : string) (w : world) (ls : list label) (m : machine) :
  run json_dump ls (boot json_load path w) = Some m ->
  1000 < count_ticks ls ->
  log_data (engine m) = lastn 1000 (collected ls).
Proof.
  intros R N. apply run_log_data in R. rewrite R.
  rewrite deque_extend_lastn
    by (rewrite boot_engine; apply init_log_data_bounded).
  apply lastn_app_long. rewrite length_collected. lia.
Qed.

(** *** The loop and its persistence *)

(** C3 (as the code has it): an iteration calls [save_log_data] exactly
    when the history, after the append of that iteration, has a length
    that is a multiple of 10.  With [h0] snapshots loaded at startup and
    while the history is below its capacity, that length is [h0 + k] at
    iteration [k]: the save happens on every 10th iteration, counted from
    the length of the history at startup. *)
Theorem tick_saves_by_history_length
        (path : string) (w : world) (ls : list label) (m m' : machine)
        (i : nat) (inp : tick_input text) :
  run json_dump ls (boot json_load path w) = Some m ->
  step json_dump (LTick i inp) m = Some m' ->
  let h0 := length (log_data (engine (boot json_load path w))) in
  let k := count_ticks ls + 1 in
  h0 + k <= 1000 ->
  length (log_data (engine m')) = h0 + k
  /\ (saved m m' = true <-> (h0 + k) mod 10 = 0).
Proof.
  intros R S h0 k B.
  assert (length (log_data (engine m')) = h0 + k) as L.
  { pose proof (run_snoc _ _ _ R S) as R'.
    apply run_history_length in R'. rewrite R'.
    unfold count_ticks in *. rewrite filter_app, length_app. cbn [filter is_tick length]. fold h0. lia. }
  split; [exact L|].
  rewrite (saved_tick _ _ _ S), L. apply Nat.eqb_eq.
Qed.

(** Once the history is full its length stays at 1000, a multiple of 10:
    every iteration saves. *)
Lemma full_history_saves_every_tick
      (m m' : machine) (i : nat) (inp : tick_input text) :
  length (log_data (engine m)) = 1000 ->
  step json_dump (LTick i inp) m = Some m' ->
  saved m m' = true.
Proof.
  intros F S. rewrite (saved_tick _ _ _ S).
  apply step_engine in S. destruct S as (-> & _).
  cbn [collected flat_map app deque_extend fold_left].
  rewrite length_deque_append by lia. rewrite F. reflexivity.
Qed.

(** C4 (as the code has it): [stop_monitoring] on a running engine
    clears the flag, calls [save_log_data] once and returns; it does not
    wait for the worker.  A worker that next evaluates its loop test with
    the flag cleared returns.  On a stopped engine [stop_monitoring] does
    nothing.  After [start_monitoring] followed at once by
    [stop_monitoring] no iteration has completed, the history is the one
    loaded, and [save_log_data] was called once. *)
Theorem stop_monitoring_behaviour :
  (forall (o : write_outcome text) (self : SystemMonitor) (w : world),
      monitoring self = true ->
      let r := stop_monitoring json_dump o self w in
      fst r = set_monitoring false self
      /\ trace (snd r) = trace w ++ save_events o (log_file self) ++ [EvPrint MsgStopped]
      /\ length (filter is_open_write (skipn (length (trace w)) (trace (snd r)))) = 1
      /\ (o = WriteOk ->
          fs (snd r) (log_file self) = FileContent (json_dump (log_data self))))
  /\ (forall (o : write_outcome text) (self : SystemMonitor) (w : world),
         monitoring self = false -> stop_monitoring json_dump o self w = (self, w))
  /\ (forall (m : machine) (i : nat) (interval : Z),
         monitoring (engine m) = false ->
         nth_error (threads m) i = Some (AtLoopTest interval) ->
         exists m', step json_dump (LLoopTest i) m = Some m'
                    /\ nth_error (threads m') i = Some Finished
                    /\ engine m' = engine m /\ env m' = env m)
  /\ (forall (path : string) (w : world) (interval : Z) (o : write_outcome text),
         let m0 := boot json_load path w in
         exists m, run json_dump [LStart interval; LStop o] m0 = Some m
                   /\ monitoring (engine m) = false
                   /\ log_data (engine m) = log_data (engine m0)
                   /\ length (filter is_open_write (emitted m0 m)) = 1
                   /\ filter is_sleep (emitted m0 m) = []).
Proof.
  split; [|split; [|split]].
  - intros o self w M r.
    pose proof (stop_monitoring_engine o self w) as E.
    pose proof (stop_monitoring_trace o self w) as T.
    fold r in E, T. rewrite M in E, T.
    split; [exact E|]. split; [exact T|]. split.
    + rewrite T, skipn_length_app. destruct o; reflexivity.
    + intros ->. unfold r, stop_monitoring. rewrite M. cbn.
      now rewrite String.eqb_refl.
  - intros o self w M. unfold stop_monitoring. now rewrite M.
  - intros m i iv M N. cbn. rewrite N, M.
    eexists. split; [reflexivity|]. cbn.
    split; [eapply nth_error_set_nth; eassumption|]. split; reflexivity.
  - intros path w iv o m0.
    destruct (init_fields path w) as (_ & M & _).
    rewrite <- boot_engine in M. fold m0 in M.
    cbn. unfold start_monitoring. rewrite M.
    cbn [engine env threads set_monitoring].
    pose proof (stop_monitoring_engine o (set_monitoring true (engine m0))
                  (emit (EvPrint (MsgStarted iv)) (env m0))) as E.
    pose proof (stop_monitoring_trace o (set_monitoring true (engine m0))
                  (emit (EvPrint (MsgStarted iv)) (env m0))) as T.
    destruct (stop_monitoring json_dump o _ _) as [self' w'].
    cbn in E, T. subst self'.
    eexists. split; [reflexivity|]. cbn [engine env].
    split; [reflexivity|]. split; [reflexivity|].
    unfold emitted. cbn [env]. rewrite T, <- app_assoc, skipn_length_app.
    destruct o; split; reflexivity.
Qed.

(** *** The alert buffer *)

(** C6: after any run of engine operations from startup the alert buffer
    holds at most 100 alerts, and they are the last 100 of the alerts
    produced so far, in the order produced (all of them while fewer than
    100 were produced). *)
Theorem alert_buffer_bounded (path : string) (w : world) (ls : list label) (m : machine) :
  run json_dump ls (boot json_load path w) = Some m ->
  length (alerts (engine m)) <= 100
  /\ alerts (engine m) = lastn 100 (produced Thresholds.default ls).
Proof.
  intro R.
  destruct (init_fields path w) as (_ & _ & A & T).
  rewrite <- boot_engine in A, T.
  apply run_alerts in R; [|rewrite A; cbn; lia].
  rewrite A, T in R. cbn [app] in R. rewrite R.
  split; [|reflexivity]. rewrite length_lastn. lia.
Qed.

(** *** Saving and loading *)

Lemma init_loads_array (path : string) (w : world) (contents : text)
      (data : list Snapshot.t) :
  fs w path = FileContent contents ->
  json_load contents = Some (JArray data) ->
  log_data (fst (__init__ json_load path w)) = lastn 1000 data.
Proof.
  intros F J. rewrite init_blank.
  rewrite (load_array (blank path) w F J).
  cbn [fst log_data set_log_data blank].
  rewrite deque_extend_lastn by (simpl; lia).
  cbn [app]. apply lastn_all. rewrite length_lastn. lia.
Qed.

(** C7: with a serialization that [json.load] reads back, a fresh
    engine started on a store that holds a sequence of snapshots has the
    last 1000 of them as its history, in the stored order; started on
    what [save_log_data] wrote, it has the history that was saved, which
    is the same sequence since a history never exceeds 1000 entries. *)
Theorem save_load_roundtrip :
  (forall l, json_load (json_dump l) = Some (JArray l)) ->
  (forall (path : string) (data : list Snapshot.t) (w : world),
      fs w path = FileContent (json_dump data) ->
      log_data (fst (__init__ json_load path w)) = lastn 1000 data)
  /\ (forall (self : SystemMonitor) (w : world),
         let w' := snd (save_log_data json_dump WriteOk self w) in
         let restarted := fst (__init__ json_load (log_file self) w') in
         log_data restarted = lastn 1000 (log_data self)
         /\ (length (log_data self) <= 1000 -> log_data restarted = log_data self)).
Proof.
  intro RT. split.
  - intros path data w F. exact (init_loads_array path w F (RT data)).
  - intros self w w' restarted.
    assert (log_data restarted = lastn 1000 (log_data self)) as E.
    { unfold restarted. eapply init_loads_array; [|apply RT].
      apply save_log_data_ok. }
    split; [exact E|]. intro B. rewrite E. now apply lastn_all.
Qed.


End EngineProperties.

(** *** The statements on concrete runs *)

(** With nine snapshots loaded at startup, the first iteration brings
    the history to ten entries and saves. *)
Lemma first_tick_after_nine_loaded :
  exists m m',
    run plain_dump [LStart 60; LLoopTest 0]
      (boot plain_load "system_monitor.json" (stored nine_snapshots)) = Some m
    /\ step plain_dump (LTick 0 (sample_input 10 50)) m = Some m'
    /\ saved m m' = true.
Proof.
  eexists. eexists. split; [reflexivity|]. split; reflexivity.
Qed.

Lemma tick_saves_by_history_length_witness :
  exists m m',
    run plain_dump [LStart 60; LLoopTest 0]
      (boot plain_load "system_monitor.json" (stored nine_snapshots)) = Some m
    /\ step plain_dump (LTick 0 (sample_input 10 50)) m = Some m'
    /\ length (log_data (engine m')) = 10
    /\ saved m m' = true.
Proof.
  destruct first_tick_after_nine_loaded as (m & m' & R & S & _).
  exists m, m'. split; [exact R|]. split; [exact S|].
  destruct (tick_saves_by_history_length plain_dump plain_load
              "system_monitor.json" (stored nine_snapshots) _ _ _ R S) as [L H].
  - vm_compute. lia.
  - split; [exact L|]. apply H. reflexivity.
Defined.

(** C3 (as stated) fails: with nine snapshots loaded at startup the first
    iteration saves, and 1 is not a multiple of 10. *)
Lemma saves_not_every_tenth_tick : ~ saves_every_tenth_tick.
Proof.
  intro C.
  destruct first_tick_after_nine_loaded as (m & m' & R & S & V).
  apply (C _ _ _ _ _ _ _ _ _ _ R S) in V. discriminate V.
Qed.

(** Started on an empty store, the engine is stopped while its worker is
    inside the first iteration. *)
Lemma stop_during_first_tick :
  exists m m',
    run plain_dump [LStart 1; LLoopTest 0]
      (boot plain_load "system_monitor.json" empty_world) = Some m
    /\ step plain_dump (LStop WriteOk) m = Some m'
    /\ monitoring (engine m') = false
    /\ threads m' = [InTick 1].
Proof.
  eexists. eexists. split; [reflexivity|]. split; [reflexivity|].
  split; reflexivity.
Qed.

(** C4 (as stated) fails: [stop_monitoring] returns while the worker is
    inside an iteration. *)
Lemma stop_does_not_wait_for_tick : ~ stop_waits_for_tick.
Proof.
  intro C.
  destruct stop_during_first_tick as (m & m' & R & S & _ & T).
  specialize (C _ _ _ _ _ _ _ _ _ R S). rewrite T in C. discriminate C.
Qed.

(** The iteration in flight when [stop_monitoring] returned still runs:
    with nine snapshots loaded it appends a tenth after the save of
    [stop_monitoring] and saves again. *)
Example in_flight_tick_saves_after_stop :
  option_map (fun m => (length (log_data (engine m)),
                        length (filter is_open_write (trace (env m))),
                        threads m))
    (run plain_dump [LStart 1; LLoopTest 0; LStop WriteOk;
                     LTick 0 (sample_input 10 50); LLoopTest 0]
       (boot plain_load "system_monitor.json" (stored nine_snapshots)))
  = Some (10, 2, [Finished]).
Proof. reflexivity. Qed.

Lemma stop_monitoring_behaviour_witness :
  let running := set_monitoring true (sample_monitor nine_snapshots) in
  let r := stop_monitoring plain_dump WriteOk running empty_world in
  monitoring (fst r) = false
  /\ log_data (fst r) = nine_snapshots
  /\ trace (snd r) = [EvOpenWrite "system_monitor.json"; EvPrint MsgStopped]
  /\ fs (snd r) "system_monitor.json" = FileContent nine_snapshots.
Proof.
  intros running r.
  destruct (proj1 (stop_monitoring_behaviour plain_dump plain_load)
              WriteOk running empty_world eq_refl) as (E & T & _ & F).
  fold r in E, T, F. rewrite E, T.
  split; [reflexivity|]. split; [reflexivity|]. split; [reflexivity|].
  exact (F eq_refl).
Defined.

Lemma alert_buffer_bounded_witness :
  exists m,
    run plain_dump [LStart 60; LLoopTest 0; LTick 0 (sample_input 10 95)]
      (boot plain_load "system_monitor.json" empty_world) = Some m
    /\ length (alerts (engine m)) <= 100
    /\ map Alert.type (alerts (engine m)) = [cpu_high].
Proof.
  eexists. split; [reflexivity|].
  destruct (alert_buffer_bounded plain_dump plain_load "system_monitor.json" empty_world
              [LStart 60; LLoopTest 0; LTick 0 (sample_input 10 95)] eq_refl)
    as [B E].
  split; [exact B|]. rewrite E. reflexivity.
Defined.

(** After 101 iterations that each produce one alert the buffer holds
    100 alerts: the one of the first iteration is gone, the others are in
    the order produced. *)
Example alert_buffer_evicts_oldest :
  option_map (fun m => (length (alerts (engine m)),
                        map Alert.timestamp (firstn 3 (alerts (engine m))),
                        map Alert.timestamp (lastn 1 (alerts (engine m)))))
    (run plain_dump (hot_run 101)
       (boot plain_load "system_monitor.json" empty_world))
  = Some (100, [2; 3; 4]%Z, [101]%Z).
Proof. vm_compute. reflexivity. Qed.

Lemma save_load_roundtrip_witness :
  log_data
    (fst (__init__ plain_load "system_monitor.json"
            (snd (save_log_data plain_dump WriteOk (sample_monitor nine_snapshots)
                    empty_world))))
  = nine_snapshots.
Proof.
  refine (proj2 (proj2 (save_load_roundtrip plain_dump plain_load (fun l => eq_refl))
                   (sample_monitor nine_snapshots) empty_world) _).
  simpl. lia.
Defined.



(** * Further properties of the code *)

(** ** Threshold evaluation *)

Lemma exceeds_false_iff (v t : Q) : exceeds v t = false <-> (v <= t)%Q.
Proof.
  unfold exceeds. destruct (Qlt_le_dec t v) as [L|L]; split; intro H;
    try reflexivity; try discriminate; try assumption.
  exfalso. exact (Qlt_not_le _ _ L H).
Qed.


(** Every alert of an evaluation carries the timestamp of the snapshot,
    and there are at most two alerts more than there are partitions. *)
Theorem check_thresholds_timestamps_and_count (t : Thresholds.t) (s : Snapshot.t) :
  (forall a, In a (check_thresholds t s) -> Alert.timestamp a = Snapshot.timestamp s)
  /\ length (check_thresholds t s) <= 2 + length (get_disks s).
Proof.
  rewrite check_thresholds_eq. unfold spec_alerts. split.
  - intros a Ha. apply in_app_or in Ha. destruct Ha as [Ha|Ha].
    { destruct (exceeds _ _); [destruct Ha as [<-|[]]; reflexivity|destruct Ha]. }
    apply in_app_or in Ha. destruct Ha as [Ha|Ha].
    { destruct (exceeds _ _); [destruct Ha as [<-|[]]; reflexivity|destruct Ha]. }
    apply in_map_iff in Ha. destruct Ha as (d & <- & _). reflexivity.
  - rewrite !length_app, length_map.
    pose proof (filter_length_le
                  (fun d => exceeds (DiskInfo.percent d) (Thresholds.disk_percent t))
                  (get_disks s)) as F.
    destruct (exceeds (or_zero (get_cpu_percent s)) _);
      destruct (exceeds (or_zero (get_memory_percent s)) _); simpl; lia.
Qed.


(** A snapshot whose cpu, memory and disk readings all failed counts as
    0 percent of cpu and of memory: it gives no alert while the thresholds
    of cpu and memory are not negative, and a [cpu_high] alert of value 0
    when the cpu threshold is negative. *)
Theorem check_thresholds_failed_readings (t : Thresholds.t) (s : Snapshot.t) :
  Snapshot.cpu s = None ->
  Snapshot.memory s = None ->
  Snapshot.disk s = None ->
  ((0 <= Thresholds.cpu_percent t)%Q -> (0 <= Thresholds.memory_percent t)%Q ->
   check_thresholds t s = [])
  /\ ((Thresholds.cpu_percent t < 0)%Q ->
      exists rest,
        check_thresholds t s
        = Alert.mk (Snapshot.timestamp s) cpu_high (cpu_message 0) 0
            (Thresholds.cpu_percent t) :: rest).
Proof.
  intros C M D. split.
  - intros Hc Hm. rewrite check_thresholds_eq. unfold spec_alerts.
    unfold get_cpu_percent, get_memory_percent, get_disks. rewrite C, M, D.
    cbn [option_map or_zero filter map app].
    apply exceeds_false_iff in Hc. apply exceeds_false_iff in Hm.
    rewrite Hc, Hm. reflexivity.
  - intro H. rewrite check_thresholds_eq. unfold spec_alerts, cpu_alert.
    unfold get_cpu_percent. rewrite C. simpl or_zero.
    apply exceeds_iff in H. rewrite H. eexists. reflexivity.
Qed.

(** Raising thresholds never adds an alert: every alert under the higher
    thresholds has its counterpart, with the same kind, value, message and
    timestamp, under the lower ones. *)
Theorem check_thresholds_antitone (t t' : Thresholds.t) (s : Snapshot.t) :
  (Thresholds.cpu_percent t <= Thresholds.cpu_percent t')%Q ->
  (Thresholds.memory_percent t <= Thresholds.memory_percent t')%Q ->
  (Thresholds.disk_percent t <= Thresholds.disk_percent t')%Q ->
  forall a', In a' (check_thresholds t' s) ->
             exists a, In a (check_thresholds t s)
                       /\ Alert.type a = Alert.type a'
                       /\ Alert.value a = Alert.value a'
                       /\ Alert.message a = Alert.message a'
                       /\ Alert.timestamp a = Alert.timestamp a'.
Proof.
  intros Hc Hm Hd a' Ha. rewrite !check_thresholds_eq in *. unfold spec_alerts in *.
  apply in_app_or in Ha. destruct Ha as [Ha|Ha].
  { destruct (exceeds _ (Thresholds.cpu_percent t')) eqn:E; [|destruct Ha].
    destruct Ha as [<-|[]]. exists (cpu_alert t s). split; [|repeat split].
    apply in_or_app. left.
    apply exceeds_iff in E.
    assert (exceeds (or_zero (get_cpu_percent s)) (Thresholds.cpu_percent t) = true) as ->
        by (apply exceeds_iff; eapply Qle_lt_trans; eassumption).
    now left. }
  apply in_app_or in Ha. destruct Ha as [Ha|Ha].
  { destruct (exceeds _ (Thresholds.memory_percent t')) eqn:E; [|destruct Ha].
    destruct Ha as [<-|[]]. exists (memory_alert t s). split; [|repeat split].
    apply in_or_app. right. apply in_or_app. left.
    apply exceeds_iff in E.
    assert (exceeds (or_zero (get_memory_percent s)) (Thresholds.memory_percent t) = true)
      as -> by (apply exceeds_iff; eapply Qle_lt_trans; eassumption).
    now left. }
  apply in_map_iff in Ha. destruct Ha as (d & <- & Hin).
  apply filter_In in Hin. destruct Hin as [Hin E].
  exists (disk_alert t s d). split; [|repeat split].
  apply in_or_app. right. apply in_or_app. right.
  apply in_map. apply filter_In. split; [exact Hin|].
  apply exceeds_iff in E. apply exceeds_iff. eapply Qle_lt_trans; eassumption.
Qed.

Lemma check_thresholds_failed_readings_witness :
  check_thresholds Thresholds.default (Snapshot.mk 0 None None None None None) = [].
Proof.
  refine (proj1 (check_thresholds_failed_readings Thresholds.default
                   (Snapshot.mk 0 None None None None None) eq_refl eq_refl eq_refl) _ _);
    unfold Qle; simpl; lia.
Defined.

Lemma check_thresholds_antitone_witness :
  exists a, In a (check_thresholds Thresholds.default (sample_snapshot 0 95 40))
            /\ Alert.type a = cpu_high /\ Alert.value a = 95%Q.
Proof.
  destruct (check_thresholds_antitone Thresholds.default (Thresholds.mk 90 95 95 100)
              (sample_snapshot 0 95 40)) with
    (a' := Alert.mk 0 cpu_high (cpu_message 95) 95 90) as (a & Ha & Ty & V & _).
  - unfold Qle. simpl. lia.
  - unfold Qle. simpl. lia.
  - unfold Qle. simpl. lia.
  - left. reflexivity.
  - exists a. split; [exact Ha|]. split; [exact Ty|exact V].
Defined.

(** ** The bounded history *)

(** An append to a deque of positive capacity keeps the new item, last,
    after the last [maxlen - 1] of the items it held. *)
Theorem deque_append_keeps_newest {A : Type} (maxlen : nat) (d : list A) (x : A) :
  0 < maxlen ->
  length d <= maxlen ->
  deque_append maxlen d x = lastn (maxlen - 1) d ++ [x].
Proof.
  intros P B. rewrite deque_append_lastn by assumption.
  unfold lastn. rewrite length_app, skipn_app. simpl length.
  replace (length d + 1 - maxlen) with (length d - (maxlen - 1)) by lia.
  replace (length d - (maxlen - 1) - length d) with 0 by lia.
  reflexivity.
Qed.

Lemma deque_append_keeps_newest_witness :
  deque_append 3 [1; 2; 3] 4 = [2; 3; 4].
Proof.
  refine (eq_trans (@deque_append_keeps_newest nat 3 [1; 2; 3] 4 _ _) _).
  - lia.
  - simpl. lia.
  - reflexivity.
Defined.

(** ** The engine, its store and its workers *)

Section FurtherEngineProperties.

Context {text : Type}.
Variable json_dump : list Snapshot.t -> text.
Variable json_load : text -> option json_value.

Local Abbreviation world := (world text).
Local Abbreviation machine := (machine text).
Local Abbreviation label := (label text).

Lemma body_env (interval : Z) (inp : tick_input text) (self : SystemMonitor) (w : world) :
  snd (monitor_loop_body json_dump interval inp self w)
  = emit (EvSleep interval)
      (if length (log_data (after_tick inp self)) mod 10 =? 0
       then snd (save_log_data json_dump (tick_write inp) (after_tick inp self) w)
       else w).
Proof.
  unfold monitor_loop_body, after_tick. cbv zeta.
  cbn [alerts set_alerts set_log_data thresholds log_data log_file monitoring].
  set (a := alerts self ++ _).
  destruct (Nat.ltb_spec 100 (length a)) as [L|L];
    [|rewrite (lastn_all a) by lia];
    cbn [alerts set_alerts set_log_data thresholds log_data log_file monitoring];
    match goal with
    | |- context [if ?c then _ else _] => destruct c
    end;
    try destruct (tick_write inp); reflexivity.
Qed.

Lemma step_tick_env (i : nat) (inp : tick_input text) (m m' : machine) :
  step json_dump (LTick i inp) m = Some m' ->
  engine m' = after_tick inp (engine m)
  /\ fs (env m')
     = fs (if length (log_data (after_tick inp (engine m))) mod 10 =? 0
           then snd (save_log_data json_dump (tick_write inp)
                       (after_tick inp (engine m)) (env m))
           else env m).
Proof.
  unfold step.
  destruct (nth_error (threads m) i) as [[iv|iv|]|]; try discriminate.
  pose proof (body_engine json_dump iv inp (engine m) (env m)) as E.
  pose proof (body_env iv inp (engine m) (env m)) as V.
  destruct (monitor_loop_body json_dump iv inp (engine m) (env m)) as [self' w'].
  intro H. injection H as <-. cbn [engine env fst snd] in *.
  split; [exact E|]. rewrite V. reflexivity.
Qed.

Lemma step_log_file (l : label) (m m' : machine) :
  step json_dump l m = Some m' -> log_file (engine m') = log_file (engine m).
Proof.
  destruct l as [iv|o|k v|i|i inp]; intro H.
  - injection H as <-. unfold start_monitoring.
    destruct (monitoring (engine m)); reflexivity.
  - cbn in H.
    pose proof (stop_monitoring_engine json_dump o (engine m) (env m)) as E.
    destruct (stop_monitoring json_dump o (engine m) (env m)) as [self' w'].
    injection H as <-. cbn in E |- *. subst self'.
    destruct (monitoring (engine m)); reflexivity.
  - injection H as <-. reflexivity.
  - cbn in H. destruct (nth_error (threads m) i) as [[iv|iv|]|]; try discriminate.
    injection H as <-. reflexivity.
  - apply step_tick_env in H. destruct H as [-> _]. reflexivity.
Qed.

Lemma step_history_bounded (l : label) (m m' : machine) :
  step json_dump l m = Some m' ->
  length (log_data (engine m)) <= 1000 ->
  length (log_data (engine m')) <= 1000.
Proof.
  intros H B. apply step_engine in H. destruct H as (-> & _).
  rewrite deque_extend_lastn by assumption. rewrite length_lastn. lia.
Qed.

(** *** The history after a run *)

(** After any run from startup the history holds at most 1000 snapshots:
    the last 1000 of those loaded at startup followed by those collected
    since, in that order. *)
Theorem history_after_any_run (path : string) (w : world) (ls : list label) (m : machine) :
  run json_dump ls (boot json_load path w) = Some m ->
  length (log_data (engine m)) <= 1000
  /\ log_data (engine m)
     = lastn 1000 (log_data (engine (boot json_load path w)) ++ collected ls).
Proof.
  intro R. apply run_log_data in R.
  rewrite deque_extend_lastn in R
    by (rewrite boot_engine; apply init_log_data_bounded).
  rewrite R. split; [|reflexivity]. rewrite length_lastn. lia.
Qed.

(** *** A save that fails *)

(** A save whose [open] fails leaves every file as it was: an engine
    constructed afterwards is the one that would have been constructed
    before. *)
Theorem failed_open_keeps_store (self : SystemMonitor) (w : world) (path : string) :
  fs (snd (save_log_data json_dump OpenFails self w)) = fs w
  /\ fst (__init__ json_load path (snd (save_log_data json_dump OpenFails self w)))
     = fst (__init__ json_load path w).
Proof.
  split; [reflexivity|].
  rewrite !init_blank. unfold load_log_data. cbn [blank log_file save_log_data snd emit fs].
  destruct (fs w path) as [| |contents]; [reflexivity..|].
  destruct (json_load contents) as [[data|]|]; reflexivity.
Qed.

(** A save that fails after the file was opened leaves the part written.
    When that part does not parse, the engine constructed next starts with
    an empty history and a warning: what the store held before the save is
    lost. *)
Theorem torn_write_loses_store (self : SystemMonitor) (w : world) (partial : text) :
  json_load partial = None ->
  let w' := snd (save_log_data json_dump (WriteFails partial) self w) in
  fs w' (log_file self) = FileContent partial
  /\ __init__ json_load (log_file self) w'
     = (blank (log_file self), emit (EvPrint MsgLoadError) w').
Proof.
  intros J w'.
  assert (fs w' (log_file self) = FileContent partial) as F.
  { unfold w'. cbn. now rewrite String.eqb_refl. }
  split; [exact F|].
  rewrite init_blank. unfold load_log_data. cbn [blank log_file].
  now rewrite F, J.
Qed.

(** *** What a restart recovers *)

Lemma stored_records_frame (m m' : machine) :
  fs (env m') = fs (env m) ->
  log_file (engine m') = log_file (engine m) ->
  stored_records json_load m' = stored_records json_load m.
Proof.
  intros F L. unfold stored_records. now rewrite F, L.
Qed.

Lemma recoverable_frame (m m' : machine) :
  fs (env m') = fs (env m) ->
  engine m' = engine m \/ (log_file (engine m') = log_file (engine m)
                           /\ log_data (engine m') = log_data (engine m)) ->
  recoverable json_load m -> recoverable json_load m'.
Proof.
  intros F E (s & H & B).
  assert (log_file (engine m') = log_file (engine m)
          /\ log_data (engine m') = log_data (engine m)) as [L D]
      by (destruct E as [->|E]; [split; reflexivity|exact E]).
  exists s. rewrite D, (stored_records_frame _ _ F L). split; assumption.
Qed.

Lemma recoverable_saved (m : machine) :
  (forall l, json_load (json_dump l) = Some (JArray l)) ->
  length (log_data (engine m)) <= 1000 ->
  fs (env m) (log_file (engine m)) = FileContent (json_dump (log_data (engine m))) ->
  recoverable json_load m.
Proof.
  intros RT B F. exists []. split; [|simpl; lia].
  unfold stored_records. rewrite F, RT, app_nil_r. symmetry. now apply lastn_all.
Qed.

Lemma step_recoverable (l : label) (m m' : machine) :
  (forall l, json_load (json_dump l) = Some (JArray l)) ->
  write_succeeds l = true ->
  step json_dump l m = Some m' ->
  length (log_data (engine m)) <= 1000 ->
  recoverable json_load m ->
  recoverable json_load m'.
Proof.
  intros RT W S B R.
  pose proof (step_history_bounded _ _ S B) as B'.
  destruct l as [iv|o|k v|i|i inp].
  - injection S as <-. unfold start_monitoring.
    destruct (monitoring (engine m)); [exact R|].
    eapply recoverable_frame; [| |exact R]; [reflexivity|right; split; reflexivity].
  - destruct o; try discriminate W.
    cbn in S. unfold stop_monitoring in S.
    destruct (monitoring (engine m)) eqn:M.
    + cbn in S. injection S as <-.
      apply recoverable_saved; [exact RT|exact B|].
      cbn. now rewrite String.eqb_refl.
    + injection S as <-. destruct m. exact R.
  - injection S as <-.
    eapply recoverable_frame; [| |exact R]; [reflexivity|right; split; reflexivity].
  - cbn in S. destruct (nth_error (threads m) i) as [[iv|iv|]|]; try discriminate.
    injection S as <-.
    eapply recoverable_frame; [| |exact R]; [reflexivity|left; reflexivity].
  - cbn in W. destruct (tick_write inp) eqn:O; try discriminate W.
    apply step_tick_env in S. destruct S as [E F]. rewrite O in F.
    destruct (length (log_data (after_tick inp (engine m))) mod 10 =? 0) eqn:C.
    + apply recoverable_saved; [exact RT|exact B'|].
      rewrite F, E. cbn. now rewrite String.eqb_refl.
    + apply Nat.eqb_neq in C.
      destruct R as (s & H & Hs).
      assert (log_file (engine m') = log_file (engine m)) as L by (rewrite E; reflexivity).
      assert (length (log_data (engine m)) <= 1000) as B0 by exact B.
      assert (log_data (engine m')
              = deque_append 1000 (log_data (engine m))
                  (collect_system_snapshot (tick_provider inp))) as D
          by (rewrite E; reflexivity).
      rewrite <- E in C.
      pose proof (@length_deque_append _ 1000 (log_data (engine m))
                    (collect_system_snapshot (tick_provider inp)) B0) as LA.
      rewrite <- D in LA.
      assert (length (log_data (engine m)) < 999) as Small.
      { destruct (Nat.le_gt_cases 999 (length (log_data (engine m)))) as [G|G];
          [|exact G].
        exfalso. apply C. rewrite LA.
        replace (Nat.min 1000 (length (log_data (engine m)) + 1)) with 1000 by lia.
        reflexivity. }
      assert (length (stored_records json_load m ++ s) <= 1000) as Short.
      { destruct (Nat.le_gt_cases (length (stored_records json_load m ++ s)) 1000)
          as [G|G]; [exact G|].
        rewrite H, length_lastn in Small. lia. }
      rewrite (lastn_all _ Short) in H.
      exists (s ++ [collect_system_snapshot (tick_provider inp)]).
      rewrite (stored_records_frame m m' F L). split.
      * rewrite D, deque_append_lastn by exact B0.
        rewrite H, app_assoc. reflexivity.
      * rewrite length_app. simpl length. rewrite LA.
        replace (Nat.min 1000 (length (log_data (engine m)) + 1))
          with (length (log_data (engine m)) + 1) in * by lia.
        rewrite LA in C. 
        replace (Nat.min 1000 (length (log_data (engine m)) + 1))
          with (length (log_data (engine m)) + 1) in C by lia.
        pose proof (Nat.div_mod_eq (length (log_data (engine m))) 10).
        pose proof (Nat.div_mod_eq (length (log_data (engine m)) + 1) 10).
        pose proof (Nat.mod_upper_bound (length (log_data (engine m))) 10).
        pose proof (Nat.mod_upper_bound (length (log_data (engine m)) + 1) 10).
        lia.
Qed.

Lemma boot_recoverable (path : string) (w : world) :
  recoverable json_load (boot json_load path w)
  /\ log_file (engine (boot json_load path w)) = path
  /\ fs (env (boot json_load path w)) = fs w.
Proof.
  unfold recoverable, stored_records, boot. rewrite init_blank. unfold load_log_data.
  cbn [blank log_file].
  destruct (fs w path) as [| |contents] eqn:F.
  - cbn. rewrite F. split; [exists []; split; [reflexivity|cbn; lia]|]. split; reflexivity.
  - cbn. rewrite F. split; [exists []; split; [reflexivity|cbn; lia]|]. split; reflexivity.
  - destruct (json_load contents) as [[data|]|] eqn:J.
    + cbn [engine env log_data log_file set_log_data blank]. rewrite F, J.
      split; [|split; reflexivity].
      exists []. split; [|simpl; lia].
      rewrite deque_extend_lastn by (simpl; lia).
      cbn [app]. rewrite app_nil_r. apply lastn_all. rewrite length_lastn. lia.
    + cbn. rewrite F, J.
      split; [exists []; split; [reflexivity|cbn; lia]|]. split; reflexivity.
    + cbn. rewrite F, J.
      split; [exists []; split; [reflexivity|cbn; lia]|]. split; reflexivity.
Qed.

Lemma run_recoverable (ls : list label) :
  (forall l, json_load (json_dump l) = Some (JArray l)) ->
  forall m m',
    forallb (@write_succeeds text) ls = true ->
    run json_dump ls m = Some m' ->
    length (log_data (engine m)) <= 1000 ->
    recoverable json_load m ->
    recoverable json_load m' /\ log_file (engine m') = log_file (engine m).
Proof.
  intro RT. induction ls as [|l ls IH]; intros m m' W R B V; cbn [run] in R.
  - injection R as <-. split; [exact V|reflexivity].
  - cbn [forallb] in W. apply andb_prop in W. destruct W as [W1 W2].
    destruct (step json_dump l m) as [m1|] eqn:S; [|discriminate].
    destruct (IH m1 m' W2 R) as [V' L'].
    + eapply step_history_bounded; eassumption.
    + eapply step_recoverable; eassumption.
    + split; [exact V'|]. rewrite L'. eapply step_log_file; eassumption.
Qed.

(** When the serialization reads back and every write of a run
    succeeds, then at any point of the run the store holds the whole
    history but for the snapshots appended since the last save, fewer than
    ten: the history is the last 1000 of what an engine constructed at
    that point on the same store starts with, followed by the missing
    snapshots. *)
Theorem restart_loses_less_than_ten
        (path : string) (w : world) (ls : list label) (m : machine) :
  (forall l, json_load (json_dump l) = Some (JArray l)) ->
  forallb (@write_succeeds text) ls = true ->
  run json_dump ls (boot json_load path w) = Some m ->
  exists missing,
    length missing < 10
    /\ log_data (engine m)
       = lastn 1000 (log_data (fst (__init__ json_load path (env m))) ++ missing).
Proof.
  intros RT W R.
  destruct (boot_recoverable path w) as (V0 & L0 & _).
  destruct (run_recoverable ls RT W R) as [(s & H & Hs) L]; [|exact V0|].
  { rewrite boot_engine. apply init_log_data_bounded. }
  rewrite L0 in L.
  assert (log_data (fst (__init__ json_load path (env m)))
          = lastn 1000 (stored_records json_load m)) as I.
  { unfold stored_records. rewrite L. rewrite init_blank. unfold load_log_data.
    cbn [blank log_file].
    destruct (fs (env m) path) as [| |contents]; [reflexivity..|].
    destruct (json_load contents) as [[data|]|]; [|reflexivity..].
    cbn [fst log_data set_log_data blank].
    rewrite deque_extend_lastn by (simpl; lia).
    cbn [app]. apply lastn_all. rewrite length_lastn. lia. }
  exists s. split.
  - pose proof (Nat.mod_upper_bound (length (log_data (engine m))) 10). lia.
  - rewrite I, lastn_app_lastn. exact H.
Qed.

(** *** Workers across a restart *)

Lemma nth_error_set_nth_other {A : Type} (x : A) (l : list A) :
  forall i j, i <> j -> nth_error (set_nth i x l) j = nth_error l j.
Proof.
  induction l as [|z l IH]; intros [|i] [|j] N; cbn; try reflexivity;
    try congruence.
  apply IH. congruence.
Qed.

(** A worker that has not tested the flag since [stop_monitoring] does
    not see the stop when [start_monitoring] follows: the flag is set
    again, the worker passes its loop test, and the new worker runs
    beside it. *)
Theorem restart_keeps_old_worker
        (m : machine) (i : nat) (interval interval' : Z) (o : write_outcome text) :
  monitoring (engine m) = true ->
  nth_error (threads m) i = Some (AtLoopTest interval) ->
  exists m',
    run json_dump [LStop o; LStart interval'; LLoopTest i] m = Some m'
    /\ monitoring (engine m') = true
    /\ nth_error (threads m') i = Some (InTick interval)
    /\ nth_error (threads m') (length (threads m)) = Some (AtLoopTest interval').
Proof.
  intros M N. cbn [run step].
  pose proof (stop_monitoring_engine json_dump o (engine m) (env m)) as E.
  destruct (stop_monitoring json_dump o (engine m) (env m)) as [self' w'].
  cbn [fst] in E. rewrite M in E. subst self'.
  unfold start_monitoring. cbn [engine env threads set_monitoring monitoring].
  rewrite nth_error_app1 by (apply nth_error_Some; congruence).
  rewrite N. eexists. split; [reflexivity|]. cbn [engine threads monitoring].
  split; [reflexivity|].
  assert (i < length (threads m)) as I by (apply nth_error_Some; congruence).
  split.
  - eapply nth_error_set_nth. rewrite nth_error_app1 by exact I. exact N.
  - rewrite nth_error_set_nth_other by lia.
    rewrite nth_error_app2 by lia. rewrite Nat.sub_diag. reflexivity.
Qed.


(** *** The sleep of an iteration *)

Lemma pass_eq (interval : Z) (inp : tick_input text) (self : SystemMonitor) (w : world) :
  monitor_loop_pass json_dump interval inp self w
  = let w' := if length (log_data (after_tick inp self)) mod 10 =? 0
              then snd (save_log_data json_dump (tick_write inp) (after_tick inp self) w)
              else w in
    if sleep_raises interval
    then (after_tick inp self, emit (EvPrint MsgLoopError) w', ThreadDies)
    else (after_tick inp self, emit (EvSleep interval) w', BackToLoopTest).
Proof.
  unfold monitor_loop_pass, after_tick. cbv zeta.
  cbn [alerts set_alerts set_log_data thresholds log_data log_file monitoring].
  set (a := alerts self ++ _).
  destruct (Nat.ltb_spec 100 (length a)) as [L|L];
    [|rewrite (lastn_all a) by lia];
    cbn [alerts set_alerts set_log_data thresholds log_data log_file monitoring];
    match goal with
    | |- context [if ?c mod 10 =? 0 then _ else _] => destruct (c mod 10 =? 0)
    end;
    try destruct (tick_write inp); destruct (sleep_raises interval); reflexivity.
Qed.


(** With a negative interval the first iteration of a worker appends its
    snapshot and produces its alerts, then both sleeps raise and the
    thread ends: one warning is printed, nothing sleeps, and the flag of the
    engine stays as it was, so the engine still counts as monitoring. *)
Theorem negative_interval_ends_worker
        (interval : Z) (inp : tick_input text) (self : SystemMonitor) (w : world) :
  (interval < 0)%Z ->
  let r := monitor_loop_pass json_dump interval inp self w in
  snd r = ThreadDies
  /\ fst (fst r) = after_tick inp self
  /\ monitoring (fst (fst r)) = monitoring self
  /\ (exists saves,
          trace (snd (fst r)) = trace w ++ saves ++ [EvPrint MsgLoopError]
          /\ existsb is_sleep saves = false).
Proof.
  intros P r. unfold r. rewrite pass_eq. cbv zeta.
  unfold sleep_raises. rewrite (proj2 (Z.ltb_lt interval 0) P).
  cbn [fst snd]. split; [reflexivity|]. split; [reflexivity|]. split; [reflexivity|].
  destruct (length (log_data (after_tick inp self)) mod 10 =? 0).
  - exists (save_events (tick_write inp) (log_file self)).
    cbn [emit trace]. rewrite save_log_data_trace. cbn [after_tick log_file].
    rewrite <- app_assoc. split; [reflexivity|].
    destruct (tick_write inp); reflexivity.
  - exists []. split; reflexivity.
Qed.

End FurtherEngineProperties.

(** *** The statements on concrete runs *)

Lemma history_after_any_run_witness :
  match run plain_dump (hot_run 3)
          (boot plain_load "system_monitor.json" (stored nine_snapshots)) with
  | Some m => length (log_data (engine m)) <= 1000
  | None => False
  end.
Proof.
  destruct (run plain_dump (hot_run 3)
              (boot plain_load "system_monitor.json" (stored nine_snapshots)))
    as [m|] eqn:R.
  - exact (proj1 (history_after_any_run plain_dump plain_load "system_monitor.json"
                    (stored nine_snapshots) (hot_run 3) R)).
  - vm_compute in R. discriminate R.
Defined.

Lemma torn_write_loses_store_witness :
  log_data
    (fst (__init__ opt_load "system_monitor.json"
            (snd (save_log_data opt_dump (WriteFails None)
                    (sample_monitor nine_snapshots)
                    {| fs := fun _ => FileContent (Some nine_snapshots); trace := [] |}))))
  = [].
Proof.
  exact (f_equal (fun r => log_data (fst r))
           (proj2 (torn_write_loses_store opt_dump opt_load
                     (sample_monitor nine_snapshots)
                     {| fs := fun _ => FileContent (Some nine_snapshots); trace := [] |}
                     None eq_refl))).
Defined.

Lemma restart_loses_less_than_ten_witness :
  match run plain_dump (hot_run 12)
          (boot plain_load "system_monitor.json" (stored nine_snapshots)) with
  | Some m =>
      exists missing,
        length missing < 10
        /\ log_data (engine m)
           = lastn 1000
               (log_data (fst (__init__ plain_load "system_monitor.json" (env m)))
                ++ missing)
  | None => False
  end.
Proof.
  assert (forallb (@write_succeeds (list Snapshot.t)) (hot_run 12) = true) as W
      by (vm_compute; reflexivity).
  destruct (run plain_dump (hot_run 12)
              (boot plain_load "system_monitor.json" (stored nine_snapshots)))
    as [m|] eqn:R.
  - exact (restart_loses_less_than_ten plain_dump plain_load "system_monitor.json"
             (stored nine_snapshots) (hot_run 12) (fun l => eq_refl) W R).
  - vm_compute in R. discriminate R.
Defined.

Lemma restart_keeps_old_worker_witness :
  exists m',
    run plain_dump [LStop WriteOk; LStart 5; LLoopTest 0]
      {| engine := set_monitoring true (blank "system_monitor.json");
         env := empty_world;
         threads := [AtLoopTest 60] |} = Some m'
    /\ nth_error (threads m') 0 = Some (InTick 60)
    /\ nth_error (threads m') 1 = Some (AtLoopTest 5).
Proof.
  destruct (restart_keeps_old_worker plain_dump
              {| engine := set_monitoring true (blank "system_monitor.json");
                 env := empty_world;
                 threads := [AtLoopTest 60] |}
              0 (interval:=60) 5 WriteOk eq_refl eq_refl) as (m' & R & _ & A & B).
  exists m'. split; [exact R|]. split; [exact A|exact B].
Defined.



Lemma negative_interval_ends_worker_witness :
  snd (monitor_loop_pass plain_dump (-5) (sample_input 10 50)
         (set_monitoring true (sample_monitor nine_snapshots)) empty_world)
  = ThreadDies
  /\ monitoring (fst (fst (monitor_loop_pass plain_dump (-5) (sample_input 10 50)
                             (set_monitoring true (sample_monitor nine_snapshots))
                             empty_world)))
     = true.
Proof.
  destruct (@negative_interval_ends_worker _ plain_dump (-5) (sample_input 10 50)
              (set_monitoring true (sample_monitor nine_snapshots)) empty_world)
    as (D & _ & M & _).
  - lia.
  - split; [exact D|exact M].
Defined.

Lemma full_history_saves_every_tick_witness :
  match step plain_dump (LTick 0 (sample_input 10 50))
          {| engine := sample_monitor thousand_snapshots;
             env := empty_world;
             threads := [InTick 60] |} with
  | Some m' =>
      saved {| engine := sample_monitor thousand_snapshots;
               env := empty_world;
               threads := [InTick 60] |} m' = true
  | None => False
  end.
Proof.
  destruct (step plain_dump (LTick 0 (sample_input 10 50))
              {| engine := sample_monitor thousand_snapshots;
                 env := empty_world;
                 threads := [InTick 60] |}) as [m'|] eqn:S.
  - refine (full_history_saves_every_tick plain_dump _ _ _ _ S).
    apply repeat_length.
  - vm_compute in S. discriminate S.
Defined.

(** ** Statistics *)

Local Open Scope Q_scope.




Lemma stat_of_min_le_max (values : list Q) :
  Stat.min (stat_of values) <= Stat.max (stat_of values).
Proof.
  destruct values as [|first rest]; [apply Qle_refl|].
  cbn [stat_of Stat.min Stat.max].
  destruct (py_max_spec rest first) as (_ & H1 & _).
  destruct (py_min_spec rest first) as (_ & H2 & _).
  eapply Qle_trans; eassumption.
Qed.

(** Statistics are never over zero snapshots: the data points are at
    least one and at most the length of the history, the period is the
    window asked for, and for cpu and for memory the minimum is at most the
    maximum. *)
Theorem statistics_bounds
        (now : instant) (hours : Z) (self : SystemMonitor) (st : Statistics.t) :
  get_statistics now hours self = Some st ->
  (1 <= Statistics.data_points st <= length (log_data self))%nat
  /\ Statistics.period_hours st = hours
  /\ Stat.min (Statistics.cpu st) <= Stat.max (Statistics.cpu st)
  /\ Stat.min (Statistics.memory st) <= Stat.max (Statistics.memory st).
Proof.
  rewrite get_statistics_unfold.
  pose proof (filter_length_le
                (fun e => (now - timedelta_hours hours <=? Snapshot.timestamp e)%Z)
                (log_data self)) as F.
  fold (window now hours (log_data self)) in F.
  destruct (window now hours (log_data self)) as [|e r]; [discriminate|].
  intro H. injection H as <-.
  cbn [Statistics.data_points Statistics.period_hours Statistics.cpu Statistics.memory].
  split; [simpl length in *; lia|]. split; [reflexivity|].
  split; apply stat_of_min_le_max.
Qed.

Lemma statistics_bounds_witness :
  exists st,
    get_statistics 7200000000 1
      (sample_monitor [sample_snapshot 0 10 40; sample_snapshot 3600000000 20 50])
    = Some st
    /\ (1 <= Statistics.data_points st <= 2)%nat.
Proof.
  eexists. split; [reflexivity|].
  exact (proj1 (statistics_bounds 7200000000 1
                  (sample_monitor [sample_snapshot 0 10 40;
                                   sample_snapshot 3600000000 20 50]) eq_refl)).
Defined.

Lemma surviving_nil (get : Snapshot.t -> option Q) (data : list Snapshot.t) :
  (forall e, In e data -> or_zero (get e) == 0) -> surviving get data = [].
Proof.
  intro H. unfold surviving. induction data as [|e data IH]; [reflexivity|].
  cbn [flat_map]. rewrite IH by (intros x Hx; apply H; now right).
  specialize (H e (or_introl eq_refl)).
  destruct (get e) as [v|]; [|reflexivity].
  cbn [or_zero] in H. destruct (Qeq_dec v 0); [reflexivity|contradiction].
Qed.

(** When every snapshot of the window has its cpu reading absent or
    zero, the cpu statistics are 0, 0 and 0 although the data points are
    not zero; likewise for memory. *)
Theorem statistics_of_zero_readings
        (now : instant) (hours : Z) (self : SystemMonitor) (st : Statistics.t) :
  get_statistics now hours self = Some st ->
  ((forall e, In e (window now hours (log_data self)) ->
              or_zero (get_cpu_percent e) == 0) ->
   Statistics.cpu st = Stat.mk 0 0 0)
  /\ ((forall e, In e (window now hours (log_data self)) ->
                 or_zero (get_memory_percent e) == 0) ->
      Statistics.memory st = Stat.mk 0 0 0).
Proof.
  rewrite get_statistics_unfold.
  destruct (window now hours (log_data self)) as [|e r] eqn:W; [discriminate|].
  intro H. injection H as <-. cbn [Statistics.cpu Statistics.memory].
  split; intro Z; rewrite readings_surviving, surviving_nil by exact Z; reflexivity.
Qed.

Lemma statistics_of_zero_readings_witness :
  option_map Statistics.cpu
    (get_statistics 7200000000 1
       (sample_monitor [Snapshot.mk 3600000000 None None None None None;
                        sample_snapshot 3660000000 0 50]))
  = Some (Stat.mk 0 0 0).
Proof.
  destruct (get_statistics 7200000000 1
              (sample_monitor [Snapshot.mk 3600000000 None None None None None;
                               sample_snapshot 3660000000 0 50])) as [st|] eqn:G.
  - cbn [option_map]. f_equal.
    apply (proj1 (statistics_of_zero_readings _ _ _ G)).
    intros e [<-|[<-|[]]]; reflexivity.
  - discriminate G.
Defined.

(** ** The collectors *)

(** *** Disks *)

Lemma disk_loop_usable (ps : list partition) :
  forall disks, Forall usable ps -> disk_loop ps disks = Some (disks ++ readable_disks ps).
Proof.
  induction ps as [|p ps IH]; intros disks U; cbn [disk_loop readable_disks flat_map].
  - now rewrite app_nil_r.
  - inversion U as [|? ? Up Ups]; subst. unfold usable in Up.
    destruct (part_usage p) as [total used free| |]; [| |contradiction].
    + unfold true_div. destruct (Z.eqb_spec total 0) as [E|E]; [contradiction|].
      rewrite (IH _ Ups). cbn [app]. now rewrite <- app_assoc.
    + rewrite (IH _ Ups). reflexivity.
Qed.

Lemma disk_loop_some_usable (ps : list partition) :
  forall disks out, disk_loop ps disks = Some out -> Forall usable ps.
Proof.
  induction ps as [|p ps IH]; intros disks out H; [constructor|].
  cbn [disk_loop] in H. unfold usable at 1.
  destruct (part_usage p) as [total used free| |] eqn:U; [| |discriminate].
  - unfold true_div in H. destruct (Z.eqb_spec total 0) as [E|E]; [discriminate|].
    constructor; [unfold usable; now rewrite U|eauto].
  - constructor; [unfold usable; now rewrite U|eauto].
Qed.

(** [get_disk_info] gives a reading exactly when the partitions can be
    enumerated, no usage query fails other than for lack of permission, no
    partition reports a zero total, and the I/O counters can be read; the
    reading then lists the partitions whose usage was read, in the order of
    the enumeration, each with [used / total * 100] as its percent. *)
Theorem get_disk_info_success (p : disk_provider) (d : Disk.t) :
  get_disk_info p = Some d
  <-> exists ps io,
      disk_partitions p = Some ps
      /\ disk_io_counters p = Some io
      /\ Forall usable ps
      /\ d = Disk.mk (readable_disks ps) io.
Proof.
  unfold get_disk_info. split.
  - destruct (disk_partitions p) as [ps|]; [|discriminate].
    destruct (disk_loop ps []) as [disks|] eqn:L; [|discriminate].
    destruct (disk_io_counters p) as [io|]; [|discriminate].
    intro H. injection H as <-. exists ps, io.
    pose proof (disk_loop_some_usable _ _ L) as U.
    rewrite (disk_loop_usable [] U) in L. injection L as <-.
    repeat split; assumption.
  - intros (ps & io & -> & -> & U & ->).
    now rewrite (disk_loop_usable [] U).
Qed.

Local Open Scope Q_scope.

Lemma percent_in_range (used total : Z) :
  (0 <= used <= total)%Z -> total <> 0%Z ->
  0 <= inject_Z used / inject_Z total * 100 /\ inject_Z used / inject_Z total * 100 <= 100.
Proof.
  intros [U T] N.
  assert (0 < inject_Z total) as P.
  { change 0 with (inject_Z 0). rewrite <- Zlt_Qlt. lia. }
  split.
  - apply Qmult_le_0_compat; [|discriminate].
    apply Qle_shift_div_l; [exact P|]. rewrite Qmult_0_l.
    change 0 with (inject_Z 0). rewrite <- Zle_Qle. exact U.
  - setoid_replace 100 with (1 * 100) at 2 by ring.
    apply Qmult_le_compat_r; [|discriminate].
    apply Qle_shift_div_r; [exact P|]. rewrite Qmult_1_l.
    rewrite <- Zle_Qle. exact T.
Qed.

Lemma readable_disks_in_range (ps : list partition) :
  Forall usable ps -> Forall sane ps ->
  Forall (fun d => 0 <= DiskInfo.percent d /\ DiskInfo.percent d <= 100)
         (readable_disks ps).
Proof.
  intros U S. unfold readable_disks.
  induction ps as [|p ps IH]; [constructor|].
  inversion U as [|? ? Up Ups]; inversion S as [|? ? Sp Sps]; subst.
  cbn [flat_map]. apply Forall_app. split; [|now apply IH].
  unfold usable in Up. unfold sane in Sp.
  destruct (part_usage p) as [total used free| |]; constructor; [|constructor].
  cbn [DiskInfo.percent]. now apply percent_in_range.
Qed.

(** When every partition reports a used space between 0 and its total,
    each percent of a disk reading lies between 0 and 100, and a snapshot
    collected from them gives no [disk_high] alert under a disk threshold
    of 100 or more. *)
Theorem sane_partitions_within_hundred
        (pr : provider) (ps : list partition) (t : Thresholds.t) :
  disk_partitions (prov_disk pr) = Some ps ->
  Forall sane ps ->
  (forall d, In d (get_disks (collect_system_snapshot pr)) ->
             0 <= DiskInfo.percent d /\ DiskInfo.percent d <= 100)
  /\ (100 <= Thresholds.disk_percent t ->
      forall a, In a (check_thresholds t (collect_system_snapshot pr)) ->
                Alert.type a <> disk_high).
Proof.
  intros P S.
  assert (forall d, In d (get_disks (collect_system_snapshot pr)) ->
                    0 <= DiskInfo.percent d /\ DiskInfo.percent d <= 100) as R.
  { unfold get_disks, collect_system_snapshot. cbn [Snapshot.disk].
    unfold get_disk_info. rewrite P.
    destruct (disk_loop ps []) as [disks|] eqn:L; [|intros d []].
    pose proof (disk_loop_some_usable _ _ L) as U.
    rewrite (disk_loop_usable [] U) in L. injection L as <-.
    destruct (disk_io_counters (prov_disk pr)) as [io|]; [|intros d []].
    cbn [Disk.disks app].
    apply Forall_forall. now apply readable_disks_in_range. }
  split; [exact R|].
  intros T a Ha Ty. rewrite check_thresholds_eq in Ha. unfold spec_alerts in Ha.
  apply in_app_or in Ha. destruct Ha as [Ha|Ha].
  { destruct (exceeds _ _); [destruct Ha as [<-|[]]; discriminate|destruct Ha]. }
  apply in_app_or in Ha. destruct Ha as [Ha|Ha].
  { destruct (exceeds _ _); [destruct Ha as [<-|[]]; discriminate|destruct Ha]. }
  apply in_map_iff in Ha. destruct Ha as (d & _ & Hd).
  apply filter_In in Hd. destruct Hd as [Hd E].
  apply exceeds_iff in E. destruct (R d Hd) as [_ Hi].
  apply (Qlt_irrefl 100).
  eapply Qle_lt_trans; [exact T|]. eapply Qlt_le_trans; eassumption.
Qed.

Lemma sane_partitions_within_hundred_witness :
  Forall (fun a => Alert.type a <> disk_high)
    (check_thresholds (Thresholds.mk 80 85 100 100)
       (collect_system_snapshot
          (sample_provider 0 [sample_partition "/dev/sda1" (UsageOk 100 100 0)]))).
Proof.
  apply Forall_forall.
  refine (proj2 (sane_partitions_within_hundred
                   (sample_provider 0 [sample_partition "/dev/sda1" (UsageOk 100 100 0)])
                   (Thresholds.mk 80 85 100 100) eq_refl _) _).
  - constructor; [|constructor]. unfold sane. simpl. lia.
  - apply Qle_refl.
Defined.

(** *** Cpu *)

(** [get_cpu_info] gives an empty reading exactly when one of its three
    [psutil] queries raises.  A load average that is unavailable or that
    raises leaves the reading in place with no load average, and a missing
    frequency leaves it in place with no frequencies. *)
Theorem get_cpu_info_tolerates (s : Collectors.cpu_source) :
  (Collectors.get_cpu_info s = None
   <-> Collectors.cpu_percent_total s = None
       \/ Collectors.cpu_percent_percpu s = None
       \/ Collectors.cpu_freq s = None)
  /\ (forall c,
         Collectors.get_cpu_info s = Some c ->
         Collectors.cpu_percent_total s = Some (Cpu.cpu_percent c)
         /\ Collectors.cpu_percent_percpu s = Some (Cpu.cpu_per_core c)
         /\ (Cpu.load_avg c = None
             <-> forall triple, Collectors.os_getloadavg s <> Collectors.LoadavgOk triple)
         /\ (Collectors.cpu_freq s = Some None ->
             Cpu.cpu_freq_current c = None /\ Cpu.cpu_freq_min c = None
             /\ Cpu.cpu_freq_max c = None)).
Proof.
  unfold Collectors.get_cpu_info.
  destruct (Collectors.cpu_percent_total s) as [total|];
    [|split; [split; auto|discriminate]].
  destruct (Collectors.cpu_percent_percpu s) as [percpu|];
    [|split; [split; auto|discriminate]].
  destruct (Collectors.cpu_freq s) as [freq|];
    [|split; [split; auto|discriminate]].
  split.
  - split; [discriminate|]. intros [H|[H|H]]; discriminate H.
  - intros c H. injection H as <-. cbn.
    split; [reflexivity|]. split; [reflexivity|]. split.
    + destruct (Collectors.os_getloadavg s) as [| |triple]; split; intro H;
        try reflexivity; try discriminate; try (intros t; discriminate).
      exfalso. exact (H triple eq_refl).
    + intro H. injection H as ->. repeat split.
Qed.

(** *** Network *)

Lemma fold_left_snoc_map {A B : Type} (f : A -> B) (l : list A) :
  forall acc, fold_left (fun acc x => acc ++ [f x]) l acc = acc ++ map f l.
Proof.
  induction l as [|x l IH]; intro acc; cbn.
  - now rewrite app_nil_r.
  - rewrite IH, <- app_assoc. reflexivity.
Qed.

Lemma interface_addresses (stats : list (string * bool)) (item : string * list Address.t) :
  Interface.addresses (Collectors.interface_info stats item) = snd item
  /\ Interface.name (Collectors.interface_info stats item) = fst item
  /\ Interface.is_up (Collectors.interface_info stats item)
     = match dict_get stats (fst item) with
       | Some isup => isup
       | None => false
       end.
Proof.
  destruct item as [name addresses]. cbn. split; [|split; reflexivity].
  rewrite fold_left_snoc_map with (f := fun addr =>
    Address.mk (Address.family addr) (Address.address addr) (Address.netmask addr)
      (Address.broadcast addr)).
  cbn. rewrite <- (map_id addresses) at 2. apply map_ext. intros []; reflexivity.
Qed.

(** A network reading has one interface per entry of the address table,
    in its order, with the name and the addresses of the entry; an
    interface is up exactly when the stats table has it as up, so one that
    is absent from the stats table is reported down. *)
Theorem get_network_info_interfaces (s : Collectors.network_source) (n : Network.t) :
  Collectors.get_network_info s = Some n ->
  exists addrs stats,
    Collectors.net_if_addrs s = Some addrs
    /\ Collectors.net_if_stats s = Some stats
    /\ map Interface.name (Network.interfaces n) = map fst addrs
    /\ map Interface.addresses (Network.interfaces n) = map snd addrs
    /\ (forall itf, In itf (Network.interfaces n) ->
                    (Interface.is_up itf = true
                     <-> dict_get stats (Interface.name itf) = Some true)).
Proof.
  unfold Collectors.get_network_info.
  destruct (Collectors.net_if_addrs s) as [addrs|]; [|discriminate].
  destruct (Collectors.net_if_stats s) as [stats|]; [|discriminate].
  destruct (Collectors.net_io_counters s) as [io|]; [|discriminate].
  intro H. injection H as <-. exists addrs, stats.
  split; [reflexivity|]. split; [reflexivity|]. cbn [Network.interfaces].
  rewrite fold_left_snoc_map. cbn [app]. rewrite !map_map.
  split; [apply map_ext; intro; apply interface_addresses|].
  split; [apply map_ext; intro; apply interface_addresses|].
  intros itf Hin. apply in_map_iff in Hin. destruct Hin as (item & <- & _).
  destruct (interface_addresses stats item) as (_ & -> & ->).
  destruct (dict_get stats (fst item)) as [[|]|]; split; intro H;
    try reflexivity; try discriminate.
Qed.

(** *** Processes *)

Lemma process_loop_result (procs : list Collectors.proc_outcome) :
  forall acc,
    Collectors.process_loop procs acc
    = if existsb is_proc_error procs then None else Some (acc ++ readable procs).
Proof.
  unfold readable.
  induction procs as [|p procs IH]; intro acc; cbn.
  - now rewrite app_nil_r.
  - destruct p; cbn; rewrite ?IH; try reflexivity.
    destruct (existsb is_proc_error procs); [reflexivity|now rewrite <- app_assoc].
Qed.

Lemma existsb_proc_error (procs : list Collectors.proc_outcome) :
  existsb is_proc_error procs = true <-> In Collectors.ProcError procs.
Proof.
  rewrite existsb_exists. split.
  - intros (p & Hp & E). destruct p; try discriminate. exact Hp.
  - intro H. exists Collectors.ProcError. split; [exact H|reflexivity].
Qed.

(** [get_process_info] gives an empty reading exactly when the
    enumeration raises or the information of some process raises something
    other than the three exceptions the loop passes over. *)
Theorem get_process_info_none_iff (limit : Z) (s : option (list Collectors.proc_outcome)) :
  Collectors.get_process_info limit s = None
  <-> s = None \/ exists procs, s = Some procs /\ In Collectors.ProcError procs.
Proof.
  unfold Collectors.get_process_info. destruct s as [procs|].
  - rewrite process_loop_result.
    destruct (existsb is_proc_error procs) eqn:E.
    + split; [|reflexivity]. intros _. right. exists procs. split; [reflexivity|].
      now apply existsb_proc_error.
    + split; [discriminate|]. intros [H|(procs' & H & Hin)]; [discriminate|].
      injection H as <-. apply existsb_proc_error in Hin. congruence.
  - split; [now left|reflexivity].
Qed.

Lemma insert_desc_perm (x : Proc.t) (l : list Proc.t) :
  Permutation (Collectors.insert_desc x l) (x :: l).
Proof.
  induction l as [|y l IH]; cbn; [reflexivity|].
  destruct (Qgt_bool (Collectors.cpu_key y) (Collectors.cpu_key x)); [|reflexivity].
  rewrite IH. apply perm_swap.
Qed.

Lemma sort_desc_perm (l : list Proc.t) : Permutation (Collectors.sort_desc l) l.
Proof.
  unfold Collectors.sort_desc.
  induction l as [|x l IH]; cbn; [reflexivity|].
  rewrite insert_desc_perm. now constructor.
Qed.

Lemma insert_desc_sorted (x : Proc.t) (l : list Proc.t) :
  sorted_desc l -> sorted_desc (Collectors.insert_desc x l).
Proof.
  induction l as [|y l IH]; intro S; cbn.
  - split; [constructor|exact I].
  - destruct S as [F S].
    destruct (Qgt_bool (Collectors.cpu_key y) (Collectors.cpu_key x)) eqn:G.
    + apply Qgt_bool_iff in G. cbn. split; [|now apply IH].
      rewrite insert_desc_perm. constructor; [apply Qlt_le_weak, G|exact F].
    + assert (Collectors.cpu_key y <= Collectors.cpu_key x) as L.
      { apply Qnot_lt_le. intro C. apply Qgt_bool_iff in C. congruence. }
      cbn. split; [|split; assumption].
      constructor; [exact L|].
      eapply Forall_impl; [|exact F]. intros b Hb. cbn in Hb.
      eapply Qle_trans; eassumption.
Qed.

Lemma sort_desc_sorted (l : list Proc.t) : sorted_desc (Collectors.sort_desc l).
Proof.
  unfold Collectors.sort_desc.
  induction l as [|x l IH]; cbn; [exact I|]. now apply insert_desc_sorted.
Qed.

Lemma Forall_firstn_keep {A : Type} (P : A -> Prop) (l : list A) :
  forall n, Forall P l -> Forall P (firstn n l).
Proof.
  induction l as [|x l IH]; intros [|n] F; cbn; try constructor;
    inversion F; subst; auto.
Qed.

Lemma sorted_desc_firstn (l : list Proc.t) :
  forall n, sorted_desc l -> sorted_desc (firstn n l).
Proof.
  induction l as [|x l IH]; intros [|n] S; cbn; try exact I.
  destruct S as [F S]. split; [now apply Forall_firstn_keep|now apply IH].
Qed.

Lemma sorted_desc_app (l1 l2 : list Proc.t) :
  sorted_desc (l1 ++ l2) ->
  forall a b, In a l1 -> In b l2 -> Collectors.cpu_key b <= Collectors.cpu_key a.
Proof.
  induction l1 as [|x l1 IH]; intros S a b Ha Hb; [destruct Ha|].
  cbn in S. destruct S as [F S]. destruct Ha as [<-|Ha].
  - rewrite Forall_forall in F. apply F. apply in_or_app. now right.
  - now apply IH.
Qed.

Lemma py_prefix_firstn {A : Type} (limit : Z) (l : list A) :
  py_prefix limit l = firstn (prefix_length limit l) l.
Proof. unfold py_prefix, prefix_length. destruct (limit <? 0)%Z; reflexivity. Qed.

(** On success [get_process_info] counts every process whose
    information could be read, and lists [limit] of them, or all when there
    are fewer; a negative [limit] lists all but the last [-limit]. *)
Theorem get_process_info_counts
        (limit : Z) (procs : list Collectors.proc_outcome) (ps : Processes.t) :
  Collectors.get_process_info limit (Some procs) = Some ps ->
  Processes.total_processes ps = length (readable procs)
  /\ length (Processes.top_processes ps)
     = if (limit <? 0)%Z
       then (Processes.total_processes ps - Z.to_nat (- limit))%nat
       else Nat.min (Z.to_nat limit) (Processes.total_processes ps).
Proof.
  unfold Collectors.get_process_info. rewrite process_loop_result.
  destruct (existsb is_proc_error procs); [discriminate|].
  intro H. injection H as <-. cbn [Processes.total_processes Processes.top_processes app].
  pose proof (Permutation_length (sort_desc_perm (readable procs))) as L.
  split; [exact L|].
  rewrite py_prefix_firstn, length_firstn. unfold prefix_length.
  destruct (limit <? 0)%Z; lia.
Qed.

(** The processes listed by [get_process_info] are in descending order
    of cpu percent (a missing percent counts as 0), and none of the
    processes left out is busier than a listed one: the listed and the
    left out together are the processes read. *)
Theorem get_process_info_top_busiest
        (limit : Z) (procs : list Collectors.proc_outcome) (ps : Processes.t) :
  Collectors.get_process_info limit (Some procs) = Some ps ->
  sorted_desc (Processes.top_processes ps)
  /\ exists rest,
      Permutation (Processes.top_processes ps ++ rest) (readable procs)
      /\ forall a b, In a (Processes.top_processes ps) -> In b rest ->
                     Collectors.cpu_key b <= Collectors.cpu_key a.
Proof.
  unfold Collectors.get_process_info. rewrite process_loop_result.
  destruct (existsb is_proc_error procs); [discriminate|].
  intro H. injection H as <-. cbn [Processes.top_processes app].
  rewrite py_prefix_firstn.
  set (sorted := Collectors.sort_desc (readable procs)).
  set (n := prefix_length limit sorted).
  split; [apply sorted_desc_firstn, sort_desc_sorted|].
  exists (skipn n sorted). split.
  - rewrite firstn_skipn. apply sort_desc_perm.
  - apply sorted_desc_app. rewrite firstn_skipn. apply sort_desc_sorted.
Qed.

Lemma insert_desc_filter (k : Q) (x : Proc.t) (l : list Proc.t) :
  filter (fun z => Qeq_bool (Collectors.cpu_key z) k) (Collectors.insert_desc x l)
  = filter (fun z => Qeq_bool (Collectors.cpu_key z) k) (x :: l).
Proof.
  induction l as [|y l IH]; [reflexivity|].
  cbn [Collectors.insert_desc].
  destruct (Qgt_bool (Collectors.cpu_key y) (Collectors.cpu_key x)) eqn:G;
    [|reflexivity].
  cbn [filter] in *. rewrite IH.
  destruct (Qeq_bool (Collectors.cpu_key x) k) eqn:Ex;
    destruct (Qeq_bool (Collectors.cpu_key y) k) eqn:Ey; try reflexivity.
  exfalso. apply Qgt_bool_iff in G.
  apply Qeq_bool_iff in Ex. apply Qeq_bool_iff in Ey.
  rewrite Ex, Ey in G. exact (Qlt_irrefl _ G).
Qed.

(** The sort is stable: when the limit covers all the processes read,
    those with one and the same cpu percent are listed in the order of the
    enumeration. *)
Theorem get_process_info_stable
        (limit : Z) (procs : list Collectors.proc_outcome) (ps : Processes.t) (k : Q) :
  Collectors.get_process_info limit (Some procs) = Some ps ->
  (Z.of_nat (length (readable procs)) <= limit)%Z ->
  filter (fun z => Qeq_bool (Collectors.cpu_key z) k) (Processes.top_processes ps)
  = filter (fun z => Qeq_bool (Collectors.cpu_key z) k) (readable procs).
Proof.
  unfold Collectors.get_process_info. rewrite process_loop_result.
  destruct (existsb is_proc_error procs); [discriminate|].
  intros H B. injection H as <-. cbn [Processes.top_processes app].
  pose proof (Permutation_length (sort_desc_perm (readable procs))) as L.
  rewrite py_prefix_firstn. unfold prefix_length.
  destruct (Z.ltb_spec limit 0) as [N|N]; [lia|].
  rewrite firstn_all2 by lia.
  unfold Collectors.sort_desc.
  induction (readable procs) as [|x l IH]; [reflexivity|].
  cbn [fold_right]. rewrite insert_desc_filter. cbn [filter].
  rewrite IH; [reflexivity| |].
  - cbn [length] in B. lia.
  - apply Permutation_length. apply sort_desc_perm.
Qed.

Lemma get_network_info_interfaces_witness :
  option_map (fun n => map (fun itf => (Interface.name itf, Interface.is_up itf))
                         (Network.interfaces n))
    (Collectors.get_network_info sample_network)
  = Some [("lo"%string, true); ("tun0"%string, false)].
Proof.
  destruct (Collectors.get_network_info sample_network) as [n|] eqn:G;
    [|discriminate G].
  destruct (get_network_info_interfaces sample_network G)
    as (addrs & stats & _ & _ & _ & _ & _).
  vm_compute in G. injection G as <-. reflexivity.
Defined.

Lemma get_process_info_counts_witness :
  option_map (fun ps => (Processes.total_processes ps,
                         length (Processes.top_processes ps)))
    (Collectors.get_process_info 2 (Some sample_procs))
  = Some (4%nat, 2%nat).
Proof.
  destruct (Collectors.get_process_info 2 (Some sample_procs)) as [ps|] eqn:G;
    [|discriminate G].
  destruct (get_process_info_counts 2 sample_procs G) as [T L].
  cbn [option_map]. rewrite L, T. reflexivity.
Defined.

Lemma get_process_info_top_busiest_witness :
  option_map (fun ps => map Proc.pid (Processes.top_processes ps))
    (Collectors.get_process_info 3 (Some sample_procs))
  = Some [3; 1; 4]%Z.
Proof.
  destruct (Collectors.get_process_info 3 (Some sample_procs)) as [ps|] eqn:G;
    [|discriminate G].
  pose proof (proj1 (get_process_info_top_busiest 3 sample_procs G)) as S.
  vm_compute in G. injection G as <-. reflexivity.
Defined.

Lemma get_process_info_stable_witness :
  option_map (fun ps => map Proc.pid
                          (filter (fun z => Qeq_bool (Collectors.cpu_key z) 5)
                             (Processes.top_processes ps)))
    (Collectors.get_process_info 10 (Some sample_procs))
  = Some [1; 4]%Z.
Proof.
  destruct (Collectors.get_process_info 10 (Some sample_procs)) as [ps|] eqn:G;
    [|discriminate G].
  cbn [option_map].
  rewrite (@get_process_info_stable 10 sample_procs ps 5 G); [reflexivity|].
  vm_compute. discriminate.
Defined.

(** ** The status display *)



(** A snapshot whose first process has no name makes the display raise
    after the header of the process table. *)
Example display_raises_on_nameless_process :
  let p := Collectors.provider_of
             {| Collectors.src_now := 0;
                Collectors.src_cpu :=
                  {| Collectors.cpu_percent_total := Some 50;
                     Collectors.cpu_percent_percpu := Some [50];
                     Collectors.cpu_freq := Some None;
                     Collectors.os_getloadavg := Collectors.LoadavgAbsent |};
                Collectors.src_memory :=
                  {| Collectors.virtual_memory := None;
                     Collectors.swap_memory := None |};
                Collectors.src_disk :=
                  {| disk_partitions := Some []; disk_io_counters := Some None |};
                Collectors.src_network := sample_network;
                Collectors.src_processes :=
                  Some [Collectors.ProcInfo (sample_proc 2 None (Some 90));
                        Collectors.ProcInfo (sample_proc 1 (Some "init"%string) (Some 5))]
             |} in
  snd (display_current_status p) = None
  /\ length (fst (display_current_status p)) = 9%nat.
Proof. split; reflexivity. Qed.

(** ** The newest snapshot *)

Local Open Scope nat_scope.

Section TickHistory.

Context {text : Type}.
Variable json_dump : list Snapshot.t -> text.

(** An iteration puts the snapshot it collected at the end of the
    history, after the last 999 of the snapshots the history held: only
    the oldest one is dropped, and only from a full history. *)
Theorem tick_appends_newest (i : nat) (inp : tick_input text) (m m' : machine text) :
  step json_dump (LTick i inp) m = Some m' ->
  length (log_data (engine m)) <= 1000 ->
  log_data (engine m')
  = lastn 999 (log_data (engine m)) ++ [collect_system_snapshot (tick_provider inp)].
Proof.
  intros S B. apply step_tick in S. destruct S as (_ & _ & -> & _).
  cbn [after_tick log_data].
  apply (@deque_append_keeps_newest _ 1000); [lia|exact B].
Qed.

End TickHistory.

Lemma tick_appends_newest_witness :
  match step plain_dump (LTick 0 (sample_input 7 50))
          {| engine := sample_monitor thousand_snapshots;
             env := empty_world;
             threads := [InTick 60] |} with
  | Some m' =>
      log_data (engine m')
      = lastn 999 thousand_snapshots
          ++ [collect_system_snapshot (tick_provider (sample_input 7 50))]
  | None => False
  end.
Proof.
  destruct (step plain_dump (LTick 0 (sample_input 7 50))
              {| engine := sample_monitor thousand_snapshots;
                 env := empty_world;
                 threads := [InTick 60] |}) as [m'|] eqn:S.
  - refine (tick_appends_newest plain_dump _ _ _ S _).
    cbn [engine sample_monitor log_data]. unfold thousand_snapshots.
    rewrite repeat_length. lia.
  - vm_compute in S. discriminate S.
Defined.
